(** * Organization_photos: the background organizer of [organizar_fotos.py]

    A shallow embedding of [OrganizerThread] (the worker that walks a source
    tree, classifies files by extension, reads a capture date and copies or
    moves each file into a tree organised by date) and of the window
    [PhotoOrganizerApp] that starts it, together with the properties of its
    specification and further properties of the code.

    Conventions of the model.
    - A Python [str] is a Rocq [string]; the text is taken as UTF-8, so the
      separators ['/'] and ['.'] and the ASCII letters are single characters
      and every other character is left alone by [lower].
    - Paths follow [posixpath]: [os.path.join], [os.path.dirname],
      [os.path.basename] and [os.path.splitext] are written out below as the
      library defines them.
    - A [datetime] keeps the six calendar fields the program can observe.
    - The operating system is an interface ([OS]): the worker is defined for
      every implementation of it, and a small file system ([FS]) implements
      it for the statements that need one.
    - [os.walk] is a generator; a run takes the pairs of a directory and its
      file names that the generator yields, in order, as the list [walk].
    - The controller thread is a function that says before which reading of
      the flag it calls [stop].
    - The window ([Gui]) is what its handlers read and write of the widgets;
      what happens to it is a list of actions of the user and of events
      that arrive from the thread.

    Part I holds the definitions: the code first, then the notions in which
    the properties are stated. Part II holds the properties. *)

From Stdlib Require Import Ascii String DecimalString DecimalNat List Arith Bool Lia.
From stdpp Require Import gmap strings list fin_maps.

#[local] Set Warnings "-abstract-large-number".

(* ===================================================================== *)
(** * Part I. Definitions                                                 *)
(* ===================================================================== *)

(** ** Python strings *)

Module PyStr.

Definition sep : ascii := "/"%char.
Definition extsep : ascii := "."%char.

(** [s.startswith(c)] for a one-character [c]. *)
Definition startswith (c : ascii) (s : string) : bool :=
  match s with
  | String a _ => Ascii.eqb a c
  | EmptyString => false
  end.

(** [s.endswith(c)] for a one-character [c]. *)
Fixpoint endswith (c : ascii) (s : string) : bool :=
  match s with
  | EmptyString => false
  | String a EmptyString => Ascii.eqb a c
  | String _ r => endswith c r
  end.

(** [not s]: the empty string is the only falsy string. *)
Definition is_empty (s : string) : bool :=
  match s with EmptyString => true | _ => false end.

(** [c in s] for a one-character [c]. *)
Fixpoint contains (c : ascii) (s : string) : bool :=
  match s with
  | EmptyString => false
  | String a r => Ascii.eqb a c || contains c r
  end.

(** [s == c * len(s)]: every character of [s] is [c]. *)
Fixpoint all_char (c : ascii) (s : string) : bool :=
  match s with
  | EmptyString => true
  | String a r => Ascii.eqb a c && all_char c r
  end.

(** [(s[:i], s[i:])] for [i = s.rfind(c) + 1]: the cut just after the last
    occurrence of [c], or at the start when there is none. *)
Fixpoint rcut (c : ascii) (s : string) : string * string :=
  match s with
  | EmptyString => (EmptyString, EmptyString)
  | String a r =>
      match rcut c r with
      | (EmptyString, t) =>
          if Ascii.eqb a c then (String a EmptyString, t)
          else (EmptyString, String a t)
      | (h, t) => (String a h, t)
      end
  end.

(** [s.rstrip(c)]. *)
Fixpoint rstrip (c : ascii) (s : string) : string :=
  match s with
  | EmptyString => EmptyString
  | String a r =>
      match rstrip c r with
      | EmptyString => if Ascii.eqb a c then EmptyString else String a EmptyString
      | r' => String a r'
      end
  end.

Definition lower_char (a : ascii) : ascii :=
  let n := nat_of_ascii a in
  if (65 <=? n) && (n <=? 90) then ascii_of_nat (n + 32) else a.

(** [s.lower()]. *)
Fixpoint lower (s : string) : string :=
  match s with
  | EmptyString => EmptyString
  | String a r => String (lower_char a) (lower r)
  end.

(** [str(n)] for a non-negative integer. *)
Definition str (n : nat) : string := NilZero.string_of_uint (Nat.to_uint n).

(** [f"{n:02d}"] for a non-negative integer: decimal, padded with zeros on
    the left up to width 2. *)
Definition fmt_02d (n : nat) : string :=
  let s := str n in
  if String.length s <? 2 then "0" +:+ s else s.

(** [x in {...}] for a set literal of strings. *)
Definition mem (x : string) (l : list string) : bool :=
  existsb (String.eqb x) l.

End PyStr.

(** ** [os.path] on POSIX *)

Module posixpath.
Import PyStr.

(** One round of the loop of [join]: a component that starts with the
    separator restarts the path; after an empty path or a trailing
    separator the component is appended as it is; otherwise a separator
    is put in between. *)
Definition join_step (path b : string) : string :=
  if startswith sep b then b
  else if is_empty path || endswith sep path then path +:+ b
  else path +:+ "/" +:+ b.

(** [os.path.join(a, *p)]. *)
Definition join (a : string) (p : list string) : string :=
  fold_left join_step p a.

(** [os.path.basename(p)]: what follows the last separator. *)
Definition basename (p : string) : string := snd (rcut sep p).

(** [os.path.dirname(p)]: what precedes the last separator, without its
    trailing separators unless it consists of separators only. *)
Definition dirname (p : string) : string :=
  let head := fst (rcut sep p) in
  if negb (is_empty head) && negb (all_char sep head)
  then rstrip sep head else head.

(** [os.path.splitext(p)[1]]: from the last dot of the last component on,
    provided some character other than a dot precedes that dot in the
    component; empty otherwise. *)
Definition splitext_ext (p : string) : string :=
  match rcut extsep (basename p) with
  | (EmptyString, _) => EmptyString
  | (h, t) => if all_char extsep h then EmptyString else "." +:+ t
  end.

End posixpath.

(** ** [datetime] *)

Record datetime : Type := mk_datetime {
  year : nat; month : nat; day : nat;
  hour : nat; minute : nat; second : nat
}.

(** ** The worker object *)

(** The attributes set by [OrganizerThread.__init__]. The signals and the
    mutex carry no data; [stop_flag] is the flag the mutex guards. *)
Record OrganizerThread : Type := mk_thread {
  source_folder : string;
  dest_folder : string;
  method : string;
  copy_files : bool;
  stop_flag : bool
}.

(** [OrganizerThread(source_folder, dest_folder, method, copy_files)]. *)
Definition new_thread (src dst meth : string) (copy : bool) : OrganizerThread :=
  mk_thread src dst meth copy false.

(** [check_stop_flag]: reads the flag under the mutex. *)
Definition check_stop_flag (self : OrganizerThread) : bool := stop_flag self.

(** [stop]: sets the flag under the mutex. *)
Definition stop (self : OrganizerThread) : OrganizerThread :=
  mk_thread (source_folder self) (dest_folder self) (method self)
            (copy_files self) true.

Definition IMAGE_EXTS : list string :=
  [".jpg"; ".jpeg"; ".png"; ".gif"; ".bmp"; ".tiff"; ".webp"; ".heic"].

Definition VIDEO_EXTS : list string :=
  [".mp4"; ".mov"; ".avi"; ".mkv"; ".flv"].

Definition is_image (file_path : string) : bool :=
  PyStr.mem (PyStr.lower (posixpath.splitext_ext file_path)) IMAGE_EXTS.

Definition is_video (file_path : string) : bool :=
  PyStr.mem (PyStr.lower (posixpath.splitext_ext file_path)) VIDEO_EXTS.

Definition METHOD_YEAR_MONTH : string := "Año/Mes".
Definition METHOD_YEAR_MONTH_DAY : string := "Año/Mes/Día".

Definition generate_dest_path (self : OrganizerThread) (photo_date : datetime)
    (filename : string) : string :=
  if String.eqb (method self) METHOD_YEAR_MONTH then
    posixpath.join (dest_folder self)
      [PyStr.str (year photo_date); PyStr.fmt_02d (month photo_date); filename]
  else if String.eqb (method self) METHOD_YEAR_MONTH_DAY then
    posixpath.join (dest_folder self)
      [PyStr.str (year photo_date); PyStr.fmt_02d (month photo_date);
       PyStr.fmt_02d (day photo_date); filename]
  else
    posixpath.join (dest_folder self) ["Evento_Personalizado"; filename].

(** ** [datetime.strptime(value, "%Y:%m:%d %H:%M:%S")]

    [_strptime] turns the format into a regular expression, one group per
    directive, matches it at the start of the text and then requires that
    nothing is left over; the calendar check is the one of the [datetime]
    constructor. The groups are
    - [%Y]: [\d\d\d\d]
    - [%m]: [1[0-2]|0[1-9]|[1-9]]
    - [%d]: [3[0-1]|[1-2]\d|0[1-9]|[1-9]| [1-9]]
    - [%H]: [2[0-3]|[0-1]\d|\d]
    - [%M]: [[0-5]\d|\d]
    - [%S]: [6[0-1]|[0-5]\d|\d]
    and the blank of the format becomes [\s+]. A matcher returns every way
    to match a prefix, in the order in which the regular expression engine
    tries them, so that the first complete match is the engine's match. *)

Module Strptime.

Definition matcher (A : Type) : Type := string -> list (A * string).

Definition mret {A} (a : A) : matcher A := fun s => [(a, s)].

Definition mbind {A B} (m : matcher A) (f : A -> matcher B) : matcher B :=
  fun s => flat_map (fun '(a, r) => f a r) (m s).

Definition alt {A} (m1 m2 : matcher A) : matcher A :=
  fun s => m1 s ++ m2 s.

Definition digit_val (a : ascii) : option nat :=
  let n := nat_of_ascii a in
  if (48 <=? n) && (n <=? 57) then Some (n - 48) else None.

(** One decimal digit whose value lies in [lo..hi]. *)
Definition digit_in (lo hi : nat) : matcher nat :=
  fun s =>
    match s with
    | String a r =>
        match digit_val a with
        | Some v => if (lo <=? v) && (v <=? hi) then [(v, r)] else []
        | None => []
        end
    | EmptyString => []
    end.

(** Two digits, the first in [l1..h1] and the second in [l2..h2]. *)
Definition two_digits (l1 h1 l2 h2 : nat) : matcher nat :=
  mbind (digit_in l1 h1) (fun a =>
  mbind (digit_in l2 h2) (fun b => mret (10 * a + b))).

Definition lit (c : ascii) : matcher unit :=
  fun s =>
    match s with
    | String a r => if Ascii.eqb a c then [(tt, r)] else []
    | EmptyString => []
    end.

(** [\s] on the ASCII range. *)
Definition is_space (a : ascii) : bool :=
  let n := nat_of_ascii a in
  ((9 <=? n) && (n <=? 13)) || ((28 <=? n) && (n <=? 32)).

(** [\s+]: greedy, the longest run first. *)
Fixpoint spaces1 (s : string) : list (unit * string) :=
  match s with
  | String a r => if is_space a then spaces1 r ++ [(tt, r)] else []
  | EmptyString => []
  end.

Definition dir_Y : matcher nat :=
  mbind (digit_in 0 9) (fun a => mbind (digit_in 0 9) (fun b =>
  mbind (digit_in 0 9) (fun c => mbind (digit_in 0 9) (fun d =>
  mret (1000 * a + 100 * b + 10 * c + d))))).

Definition dir_m : matcher nat :=
  alt (two_digits 1 1 0 2) (alt (two_digits 0 0 1 9) (digit_in 1 9)).

Definition dir_d : matcher nat :=
  alt (two_digits 3 3 0 1) (alt (two_digits 1 2 0 9)
 (alt (two_digits 0 0 1 9) (alt (digit_in 1 9)
      (mbind (lit " ") (fun _ => digit_in 1 9))))).

Definition dir_H : matcher nat :=
  alt (two_digits 2 2 0 3) (alt (two_digits 0 1 0 9) (digit_in 0 9)).

Definition dir_M : matcher nat :=
  alt (two_digits 0 5 0 9) (digit_in 0 9).

Definition dir_S : matcher nat :=
  alt (two_digits 6 6 0 1) (alt (two_digits 0 5 0 9) (digit_in 0 9)).

Definition format_regex : matcher datetime :=
  mbind dir_Y (fun y => mbind (lit ":") (fun _ =>
  mbind dir_m (fun mo => mbind (lit ":") (fun _ =>
  mbind dir_d (fun d => mbind spaces1 (fun _ =>
  mbind dir_H (fun h => mbind (lit ":") (fun _ =>
  mbind dir_M (fun mi => mbind (lit ":") (fun _ =>
  mbind dir_S (fun s => mret (mk_datetime y mo d h mi s)))))))))))).

Definition is_leap (y : nat) : bool :=
  ((y mod 4 =? 0) && negb (y mod 100 =? 0)) || (y mod 400 =? 0).

Definition days_in_month (y m : nat) : nat :=
  match m with
  | 2 => if is_leap y then 29 else 28
  | 4 | 6 | 9 | 11 => 30
  | _ => 31
  end.

(** The range checks of [datetime(year, month, day, hour, minute, second)]. *)
Definition valid_datetime (d : datetime) : bool :=
  (1 <=? year d) && (year d <=? 9999) &&
  (1 <=? month d) && (month d <=? 12) &&
  (1 <=? day d) && (day d <=? days_in_month (year d) (month d)) &&
  (hour d <=? 23) && (minute d <=? 59) && (second d <=? 59).

(** [None] stands for the [ValueError] that [strptime] raises. *)
Definition strptime_exif (value : string) : option datetime :=
  match format_regex value with
  | (d, EmptyString) :: _ => if valid_datetime d then Some d else None
  | _ => None
  end.

End Strptime.

(** ** The operating system as seen by the worker *)

(** A value of the EXIF dictionary: a text, or anything that is not a [str]
    (on which [strptime] raises [TypeError]). *)
Inductive exif_value : Type :=
| ExifStr (s : string)
| ExifOther.

(** What [with Image.open(p) as img: img._getexif()] does: [Image.open]
    raises, [_getexif] raises (or the image class has no such method), or
    the call returns [None] or a dictionary from tag numbers to values,
    listed in iteration order. *)
Inductive pil_result : Type :=
| OpenRaises
| GetexifRaises
| Getexif (exif_data : option (list (N * exif_value))).

(** [TAGS.get(tag, tag) == "DateTimeOriginal"]: in [PIL.ExifTags.TAGS] the
    name DateTimeOriginal belongs to tag 0x9003 alone. *)
Definition is_DateTimeOriginal (tag : N) : bool := (tag =? 36867)%N.

(** The calls that reach the operating system, over a type [W] of states of
    the world. A call that can raise returns the new state and, when it
    raised, [Some] of the exception's text. [getmtime_date] is
    [datetime.fromtimestamp(os.path.getmtime(p))]; the worker calls it only
    on a path that [os.path.isfile] has just accepted. *)
Class OS (W : Type) : Type := {
  os_path_isfile : W -> string -> bool;
  Image_getexif : W -> string -> pil_result;
  getmtime_date : W -> string -> datetime;
  os_makedirs : string -> W -> W * option string;
  shutil_copy2 : string -> string -> W -> W * option string;
  shutil_move : string -> string -> W -> W * option string
}.

(** What the worker does that can be observed: its two signals and its calls
    that change the file system, in the order in which they happen. *)
Inductive event : Type :=
| Log (msg : string)
| Preview (path : string)
| Makedirs (dir : string)
| Copy2 (src dst : string)
| Move (src dst : string).

Definition MSG_MISSING : string :=
  "⚠️ Debes seleccionar una carpeta de origen y destino.".
Definition MSG_STOPPED : string := "⏹️ Organización detenida.".
Definition MSG_DONE : string := "🎉 Organización completada.".
Definition msg_copied (filename dest_path : string) : string :=
  "✅ Copiada: " +:+ filename +:+ " -> " +:+ dest_path.
Definition msg_moved (filename dest_path : string) : string :=
  "✅ Movida: " +:+ filename +:+ " -> " +:+ dest_path.
Definition msg_error (filename e : string) : string :=
  "❌ Error moviendo " +:+ filename +:+ ": " +:+ e.

(** ** The worker's methods over an operating system *)

Section Worker.

Context {W : Type} `{OS W}.

(** The first entry of the dictionary whose tag is DateTimeOriginal, as the
    [for] loop of [get_photo_date] finds it. *)
Fixpoint find_DateTimeOriginal (items : list (N * exif_value))
    : option exif_value :=
  match items with
  | [] => None
  | (tag, value) :: rest =>
      if is_DateTimeOriginal tag then Some value
      else find_DateTimeOriginal rest
  end.

(** [get_photo_date]: every exception raised inside the [try] block ends in
    the [except Exception: pass] and so in the last line. *)
Definition get_photo_date (w : W) (photo_path : string) : datetime :=
  let fallback := getmtime_date w photo_path in
  match Image_getexif w photo_path with
  | OpenRaises => fallback
  | GetexifRaises => fallback
  | Getexif None => fallback
  | Getexif (Some []) => fallback
  | Getexif (Some exif_data) =>
      match find_DateTimeOriginal exif_data with
      | Some (ExifStr value) =>
          match Strptime.strptime_exif value with
          | Some d => d
          | None => fallback
          end
      | Some ExifOther => fallback
      | None => fallback
      end
  end.

(** *** Control flow of [run]

    The state of a run: the worker object (its flag can change while the
    run is under way), the world, and how often the flag has been read. A
    computation returns a value, or leaves [run] by [return], or raises
    an exception that nothing catches; it also yields the events it
    produced, in order. *)
Record state : Type := mk_state {
  self_ : OrganizerThread;
  world : W;
  checks : nat
}.

Inductive result (A : Type) : Type :=
| Val (a : A)
| Returned
| Raised (e : string).
Arguments Val {A} a.
Arguments Returned {A}.
Arguments Raised {A} e.

Definition M (A : Type) : Type := state -> result A * state * list event.

#[local] Instance M_ret : MRet M := fun A a s => (Val a, s, []).

(** Sequencing: the second computation runs only when the first returned a
    value; the events of both are put one after the other. *)
#[local] Instance M_bind : MBind M := fun A B f m s =>
  match m s with
  | (Val a, s1, t1) =>
      match f a s1 with
      | (r, s2, t2) => (r, s2, t1 ++ t2)
      end
  | (Returned, s1, t1) => (Returned, s1, t1)
  | (Raised e, s1, t1) => (Raised e, s1, t1)
  end.

Definition emit (ev : event) : M unit := fun s => (Val tt, s, [ev]).

Definition return_ : M unit := fun s => (Returned, s, []).

Definition raise (e : string) : M unit := fun s => (Raised e, s, []).

Definition get_self : M OrganizerThread := fun s => (Val (self_ s), s, []).

Definition read {A} (f : W -> A) : M A := fun s => (Val (f (world s)), s, []).

(** A call that may raise: [None] when it returned, the exception's text
    when it raised. *)
Definition call (f : W -> W * option string) : M (option string) :=
  fun s =>
    match f (world s) with
    | (w', r) => (Val r, mk_state (self_ s) w' (checks s), [])
    end.

(** [for x in l: body(x)]; in the body, [mret tt] stands for reaching the
    end of the body or [continue]. *)
Fixpoint for_each {A} (l : list A) (body : A -> M unit) : M unit :=
  match l with
  | [] => mret tt
  | x :: rest => body x ;; for_each rest body
  end.

(** The controller runs in another thread and may call [stop] at any time;
    the mutex makes each access to the flag atomic, so all that the run can
    tell is whether [stop] has been called before a given reading of the
    flag. [ctrl k] says whether the controller calls [stop] between the
    reading number [k] and the one before it (readings count from 0). *)
Definition observe_flag (ctrl : nat -> bool) : M bool :=
  fun s =>
    let self' := if ctrl (checks s) then stop (self_ s) else self_ s in
    (Val (check_stop_flag self'), mk_state self' (world s) (S (checks s)), []).

(** The body of the inner loop of [run], lines 32 to 60. *)
Definition process_file (ctrl : nat -> bool) (root filename : string) : M unit :=
  let file_path := posixpath.join root [filename] in
  stopped ← observe_flag ctrl;
  if stopped : bool then
    emit (Log MSG_STOPPED) ;; return_
  else
  isfile ← read (fun w => os_path_isfile w file_path);
  if negb (isfile : bool) then mret tt
  else if negb (is_image file_path) && negb (is_video file_path) then mret tt
  else
  emit (Preview file_path) ;;
  photo_date ← read (fun w => get_photo_date w file_path);
  self ← get_self;
  let dest_path := generate_dest_path (self : OrganizerThread) photo_date filename in
  emit (Makedirs (posixpath.dirname dest_path)) ;;
  r ← call (os_makedirs (posixpath.dirname dest_path));
  match r : option string with
  | Some e => raise e
  | None =>
      if copy_files self then
        emit (Copy2 file_path dest_path) ;;
        r ← call (shutil_copy2 file_path dest_path);
        match r : option string with
        | None => emit (Log (msg_copied filename dest_path))
        | Some e => emit (Log (msg_error filename e))
        end
      else
        emit (Move file_path dest_path) ;;
        r ← call (shutil_move file_path dest_path);
        match r : option string with
        | None => emit (Log (msg_moved filename dest_path))
        | Some e => emit (Log (msg_error filename e))
        end
  end.

(** [run], with [walk] the pairs [(root, files)] that the generator
    [os.walk(self.source_folder)] yields in this run, in order. *)
Definition run (ctrl : nat -> bool) (walk : list (string * list string)) : M unit :=
  self ← get_self;
  if PyStr.is_empty (source_folder (self : OrganizerThread)) || PyStr.is_empty (dest_folder self) then
    emit (Log MSG_MISSING) ;; return_
  else
    for_each walk (fun '(root, files) =>
      for_each files (fun filename => process_file ctrl root filename)) ;;
    emit (Log MSG_DONE).

(** A run of a worker object [self] in the world [w]. *)
Definition start (self : OrganizerThread) (ctrl : nat -> bool)
    (walk : list (string * list string)) (w : W)
    : result unit * state * list event :=
  run ctrl walk (mk_state self w 0).

End Worker.

Arguments Val {A} a.
Arguments Returned {A}.
Arguments Raised {A} e.
Arguments state W : clear implicits.

(** ** A file system that implements the interface

    Directories and regular files under their absolute paths, a path being
    the list of its components from the root. A regular file has its bytes,
    its modification time (as [datetime.fromtimestamp] shows it) and what
    [Image.open] and [_getexif] make of its bytes. There are no links, no
    permissions and no quotas; a relative path is taken from the root. A
    call that fails changes nothing, and the text of its exception is the
    one of the most common case: the worker only passes the text on. *)

Module FS.
Import PyStr.

Record fdata : Type := mk_fdata {
  content : string;
  mtime : datetime;
  exif : pil_result
}.

Inductive node : Type :=
| File (d : fdata)
| Dir.

Abbreviation fs := (gmap (list string) node).

(** [s.split(c)]. *)
Fixpoint split (c : ascii) (s : string) : list string :=
  match s with
  | EmptyString => [EmptyString]
  | String a r =>
      if Ascii.eqb a c then EmptyString :: split c r
      else match split c r with
           | h :: t => String a h :: t
           | [] => [String a EmptyString]
           end
  end.

(** One component added to a path that is already resolved: empty
    components and [.] change nothing, [..] goes up. *)
Definition push (acc : list string) (c : string) : list string :=
  if String.eqb c "" || String.eqb c "." then acc
  else if String.eqb c ".." then removelast acc
  else acc ++ [c].

(** The path that a path name denotes. *)
Definition resolve (name : string) : list string :=
  fold_left push (split sep name) [].

(** The root is a directory that is always there. *)
Definition lookup_node (m : fs) (p : list string) : option node :=
  match p with
  | [] => Some Dir
  | _ => m !! p
  end.

Definition is_dir_at (m : fs) (p : list string) : bool :=
  match lookup_node m p with Some Dir => true | _ => false end.

Definition is_file_at (m : fs) (p : list string) : bool :=
  match lookup_node m p with Some (File _) => true | _ => false end.

Definition isdir (m : fs) (name : string) : bool := is_dir_at m (resolve name).
Definition isfile (m : fs) (name : string) : bool := is_file_at m (resolve name).
Definition exists_ (m : fs) (name : string) : bool :=
  match lookup_node m (resolve name) with Some _ => true | None => false end.

(** The prefixes of a path other than the root, the shortest first. *)
Fixpoint prefixes (p : list string) : list (list string) :=
  match p with
  | [] => []
  | c :: r => [c] :: map (cons c) (prefixes r)
  end.

Definition mkdirs_at (p : list string) (m : fs) : fs :=
  foldr (fun q acc => <[q := Dir]> acc) m (prefixes p).

(** [os.makedirs(name, exist_ok=True)]: raises when the name is empty or
    when the path or one of its ancestors is a regular file; otherwise
    every directory that is missing on the path is created. *)
Definition makedirs (name : string) (m : fs) : fs * option string :=
  if is_empty name then
    (m, Some "[Errno 2] No such file or directory: ''")
  else if existsb (is_file_at m) (prefixes (resolve name)) then
    (m, Some ("[Errno 20] Not a directory: '" +:+ name +:+ "'"))
  else (mkdirs_at (resolve name) m, None).

(** [shutil.copy2(src, dst)]: into the directory [dst] when it is one; the
    bytes and the metadata of [src] replace whatever regular file is at
    the target. *)
Definition copy2 (src dst : string) (m : fs) : fs * option string :=
  let dst := if isdir m dst then posixpath.join dst [posixpath.basename src]
             else dst in
  match lookup_node m (resolve src) with
  | Some (File d) =>
      if decide (resolve src = resolve dst) then
        (m, Some ("'" +:+ src +:+ "' and '" +:+ dst +:+ "' are the same file"))
      else if is_dir_at m (resolve dst) then
        (m, Some ("[Errno 21] Is a directory: '" +:+ dst +:+ "'"))
      else if is_dir_at m (removelast (resolve dst)) then
        (<[resolve dst := File d]> m, None)
      else
        (m, Some ("[Errno 2] No such file or directory: '" +:+ dst +:+ "'"))
  | _ => (m, Some ("[Errno 2] No such file or directory: '" +:+ src +:+ "'"))
  end.

(** [shutil.move(src, dst)] for a regular file [src]: into the directory
    [dst] when it is one, unless the name is taken there; otherwise the
    file is renamed, replacing a regular file at the target. *)
Definition move (src dst : string) (m : fs) : fs * option string :=
  match lookup_node m (resolve src) with
  | Some (File d) =>
      let real_dst :=
        if isdir m dst
        then posixpath.join dst [posixpath.basename (rstrip sep src)]
        else dst in
      if isdir m dst && exists_ m real_dst then
        (m, Some ("Destination path '" +:+ real_dst +:+ "' already exists"))
      else if is_dir_at m (removelast (resolve real_dst)) then
        (<[resolve real_dst := File d]> (delete (resolve src) m), None)
      else
        (m, Some ("[Errno 2] No such file or directory: '" +:+ real_dst +:+ "'"))
  | _ => (m, Some ("[Errno 2] No such file or directory: '" +:+ src +:+ "'"))
  end.

Definition EPOCH : datetime := mk_datetime 1970 1 1 0 0 0.

#[global] Instance FS_OS : OS fs := {
  os_path_isfile := isfile;
  Image_getexif m name :=
    match lookup_node m (resolve name) with
    | Some (File d) => exif d
    | _ => OpenRaises
    end;
  getmtime_date m name :=
    match lookup_node m (resolve name) with
    | Some (File d) => mtime d
    | _ => EPOCH
    end;
  os_makedirs := makedirs;
  shutil_copy2 := copy2;
  shutil_move := move
}.

(** A file system given by its entries. *)
Definition of_list (l : list (string * node)) : fs :=
  list_to_map (map (fun '(name, n) => (resolve name, n)) l).

End FS.

(** The controller that never calls [stop]. *)
Definition never : nat -> bool := fun _ => false.

(** ** What is counted in a trace *)

Definition is_relocation (ev : event) : bool :=
  match ev with
  | Copy2 _ _ | Move _ _ => true
  | _ => false
  end.


Definition is_log (msg : string) (ev : event) : bool :=
  match ev with
  | Log m => String.eqb m msg
  | _ => false
  end.

(** How often the log signal carried the message [msg]. *)
Definition count_log (msg : string) (t : list event) : nat :=
  length (List.filter (is_log msg) t).

(** The file names that a walk yields, over all its directories. *)
Definition walk_files (walk : list (string * list string)) : list string :=
  flat_map snd walk.

(** ** Notions used in the statements *)

(** What the reading number [k] of the flag returns in a run of [self]:
    the flag was set from the start, or the controller has called [stop]
    by then. *)
Definition flag_seen (self : OrganizerThread) (ctrl : nat -> bool) (k : nat) : bool :=
  stop_flag self || existsb ctrl (seq 0 (S k)).

(** The worker object as a reading of the flag leaves it. *)
Definition self_at {W : Type} (ctrl : nat -> bool) (s : state W) : OrganizerThread :=
  if ctrl (checks s) then stop (self_ s) else self_ s.

(** The flag of the worker object after some readings. *)
Definition flag_inv {W : Type} (self : OrganizerThread) (ctrl : nat -> bool)
    (s : state W) : Prop :=
  stop_flag (self_ s) = stop_flag self || existsb ctrl (seq 0 (checks s)).

(** The run has read the flag and found it set. *)
Definition saw_stop {W : Type} (self : OrganizerThread) (ctrl : nat -> bool)
    (s : state W) : Prop :=
  exists k, k < checks s /\ flag_seen self ctrl k = true.

Definition not_done (ev : event) : Prop := ev <> Log MSG_DONE.




(** The worker relocates a file in lines 50 to 60: it creates the
    destination directory, then copies or moves the file. The call of
    [os.makedirs] marks the attempt. *)
Definition is_attempt (ev : event) : bool :=
  match ev with
  | Makedirs _ => true
  | _ => false
  end.


(** A path name used as a directory: followed by a separator, unless it is
    empty or ends with one already. *)
Definition as_dir (p : string) : string :=
  if PyStr.is_empty p || PyStr.endswith PyStr.sep p then p else p +:+ "/".

(** The two decimal digits of a number below 100. *)
Definition two_dec (n : nat) : string :=
  String (ascii_of_nat (48 + n / 10)) (String (ascii_of_nat (48 + n mod 10)) "").

(** The part of the capture date that a method keeps. *)
Definition bucket (meth : string) (d : datetime) : list nat :=
  if String.eqb meth METHOD_YEAR_MONTH then [year d; month d]
  else if String.eqb meth METHOD_YEAR_MONTH_DAY then [year d; month d; day d]
  else [].

(** The subdirectories that a method puts between the destination folder and
    the file name, each followed by a separator. *)
Definition date_dirs (meth : string) (d : datetime) : string :=
  if String.eqb meth METHOD_YEAR_MONTH then
    PyStr.str (year d) +:+ "/" +:+ PyStr.fmt_02d (month d) +:+ "/"
  else if String.eqb meth METHOD_YEAR_MONTH_DAY then
    PyStr.str (year d) +:+ "/" +:+ PyStr.fmt_02d (month d) +:+ "/"
    +:+ PyStr.fmt_02d (day d) +:+ "/"
  else "Evento_Personalizado/".

(** The four decimal digits of a number below 10000. *)
Definition four_dec (n : nat) : string :=
  String (ascii_of_nat (48 + n / 1000))
    (String (ascii_of_nat (48 + (n / 100) mod 10)) (two_dec (n mod 100))).

(** A date and time written as EXIF writes it, [YYYY:MM:DD HH:MM:SS]. *)
Definition exif_text (d : datetime) : string :=
  four_dec (year d) +:+ ":" +:+ two_dec (month d) +:+ ":" +:+ two_dec (day d)
  +:+ " " +:+ two_dec (hour d) +:+ ":" +:+ two_dec (minute d) +:+ ":"
  +:+ two_dec (second d).

(** The first way in which a matcher matches. *)
Definition heads {A} (m : Strptime.matcher A) (s : string) (a : A) (r : string) : Prop :=
  exists junk, m s = (a, r) :: junk.

(** A name that a directory entry can have: not empty, without separator,
    and neither [.] nor [..]. *)
Definition plain (c : string) : bool :=
  negb (PyStr.is_empty c) && negb (PyStr.contains PyStr.sep c)
  && negb (String.eqb c ".") && negb (String.eqb c "..").

(** The components of a path, joined by separators. *)
Fixpoint sep_join (comps : list string) : string :=
  match comps with
  | [] => ""
  | [c] => c
  | c :: rest => c +:+ String PyStr.sep (sep_join rest)
  end.

(** The directories that a method puts under the destination folder. *)
Definition dest_comps (meth : string) (d : datetime) : list string :=
  if String.eqb meth METHOD_YEAR_MONTH then
    [PyStr.str (year d); PyStr.fmt_02d (month d)]
  else if String.eqb meth METHOD_YEAR_MONTH_DAY then
    [PyStr.str (year d); PyStr.fmt_02d (month d); PyStr.fmt_02d (day d)]
  else ["Evento_Personalizado"].

(** The pairs of a directory and a file name that a walk yields. *)
Definition candidates (walk : list (string * list string)) : list (string * string) :=
  flat_map (fun '(root, files) => map (pair root) files) walk.



(** The body of the loop over the candidates. *)
Definition visit {W : Type} `{OS W} (ctrl : nat -> bool) : string * string -> M unit :=
  fun '(root, f) => process_file ctrl root f.

(** The request does not change during a run. *)
Definition same_request (a b : OrganizerThread) : Prop :=
  dest_folder a = dest_folder b /\ method a = method b /\ copy_files a = copy_files b.

(** Where [shutil.copy2] writes. *)
Definition copy_target (m : FS.fs) (src dst : string) : list string :=
  FS.resolve (if FS.isdir m dst then posixpath.join dst [posixpath.basename src]
              else dst).

(** ** Kinds of entries, and the relation between two runs *)

Module Kind.
Import FS.

(** Whether a path is free, a directory or a regular file. *)
Definition kind (o : option node) : option bool :=
  match o with
  | None => None
  | Some Dir => Some true
  | Some (File _) => Some false
  end.

(** [m'] has every entry of [m], as a directory or as a regular file as in
    [m]. *)
Definition kle (m m' : fs) : Prop :=
  forall p, kind (m !! p) = None \/ kind (m !! p) = kind (m' !! p).

Definition file_at (m : fs) (p : list string) : option fdata :=
  match m !! p with
  | Some (File d) => Some d
  | _ => None
  end.


End Kind.

(** ** Sample worlds *)

Module Sample.
Import FS.

Definition jpeg (taken : string) : node :=
  File (mk_fdata "JFIF" (mk_datetime 2019 7 7 9 30 0)
          (Getexif (Some [(271%N, ExifStr "Camera"); (36867%N, ExifStr taken)]))).

Definition other (y m d : nat) : node :=
  File (mk_fdata "data" (mk_datetime y m d 12 0 0) OpenRaises).

(** A source with a photograph and a text file, and an empty destination. *)
Definition photos : fs :=
  of_list [("/src", Dir); ("/src/a.jpg", jpeg "2021:05:03 10:00:00");
           ("/src/b.txt", other 2020 1 1); ("/dest", Dir)].

Definition photos_walk : list (string * list string) :=
  [("/src", ["a.jpg"; "b.txt"])].

(** A source with directories only. *)
Definition bare : fs := of_list [("/src", Dir); ("/src/sub", Dir); ("/dest", Dir)].

Definition bare_walk : list (string * list string) :=
  [("/src", []); ("/src/sub", [])].

Definition by_month : OrganizerThread := new_thread "/src" "/dest" "Año/Mes" true.

(** Two photographs, and a destination in which a regular file has the name
    of a year. *)
Definition blocked : fs :=
  of_list [("/src", Dir); ("/src/a.jpg", jpeg "2021:05:03 10:00:00");
           ("/src/b.jpg", jpeg "2022:06:04 11:00:00");
           ("/dest", Dir); ("/dest/2021", other 2000 1 1)].

Definition blocked_walk : list (string * list string) :=
  [("/src", ["a.jpg"; "b.jpg"])].

Definition shot (bytes taken : string) : node :=
  File (mk_fdata bytes (mk_datetime 2019 7 7 9 30 0)
          (Getexif (Some [(36867%N, ExifStr taken)]))).

(** Two photographs of the same month with the same name, in two
    directories of the source. *)
Definition album : fs :=
  of_list [("/src", Dir); ("/src/x", Dir); ("/src/y", Dir);
           ("/src/x/p.jpg", shot "first" "2021:05:03 10:00:00");
           ("/src/y/p.jpg", shot "second" "2021:05:20 18:00:00");
           ("/dest", Dir)].

Definition album_walk : list (string * list string) :=
  [("/src", []); ("/src/x", ["p.jpg"]); ("/src/y", ["p.jpg"])].

End Sample.

(** ** Further notions for the properties of the worker *)

Definition is_any_log (ev : event) : bool :=
  match ev with
  | Log _ => true
  | _ => false
  end.

Definition is_preview (ev : event) : bool :=
  match ev with
  | Preview _ => true
  | _ => false
  end.

Definition is_copy_call (ev : event) : bool :=
  match ev with
  | Copy2 _ _ => true
  | _ => false
  end.

Definition is_move_call (ev : event) : bool :=
  match ev with
  | Move _ _ => true
  | _ => false
  end.

(** How many events of a trace satisfy [f]. *)
Definition count_ev (f : event -> bool) (t : list event) : nat :=
  length (List.filter f t).

(** An event of a visit: neither of the two messages that close a run. *)
Definition per_file (ev : event) : Prop :=
  ev <> Log MSG_DONE /\ ev <> Log MSG_STOPPED.

(** What a visit or a loop of visits leaves in the trace, by the way it
    ends: as many previews as attempts; one log per call of [shutil.copy2]
    or [shutil.move], and one more when it ends by [return]; as many such
    calls as attempts, but for the attempt that an exception cut short. *)
Definition balanced (r : result unit) (t : list event) : Prop :=
  count_ev is_preview t = count_ev is_attempt t /\
  match r with
  | Val _ =>
      count_ev is_any_log t = count_ev is_relocation t /\
      count_ev is_attempt t = count_ev is_relocation t
  | Returned =>
      count_ev is_any_log t = S (count_ev is_relocation t) /\
      count_ev is_attempt t = count_ev is_relocation t
  | Raised _ =>
      count_ev is_any_log t = count_ev is_relocation t /\
      count_ev is_attempt t = S (count_ev is_relocation t)
  end.

(** The events of visits, closed by the "stopped" message when the loop ends
    by [return]. *)
Definition stops_last (r : result unit) (t : list event) : Prop :=
  match r with
  | Returned => exists t0, t = t0 ++ [Log MSG_STOPPED] /\ Forall per_file t0
  | _ => Forall per_file t
  end.


Module Scenes.
Import FS.


(** A photograph whose capture date has a fraction of a second. *)
Definition precise : fs :=
  of_list [("/src", Dir); ("/src/a.jpg", Sample.jpeg "2021:05:03 10:00:00.25");
           ("/dest", Dir)].

End Scenes.

(** ** The window: [PhotoOrganizerApp]

    The widgets are modelled by what the handlers read and write of them:
    the text of a label, the current index of the combo box, whether the
    check box is checked, whether a button is enabled, the lines of the
    text edit, the pixmaps of the scene (by the path they were read from).
    A dialog is modelled by the text it returns, which is empty when it is
    cancelled. *)

Module Gui.

(** The texts of the combo box, in the order of [addItems]. *)
Definition METHODS : list string := ["Año/Mes"; "Año/Mes/Día"; "Evento Personalizado"].

Record PhotoOrganizerApp : Type := mk_app {
  source_folder : string;
  dest_folder : string;
  source_label : string;
  dest_label : string;
  organize_method : nat;
  copy_mode : bool;
  start_button : bool;
  stop_button : bool;
  log_box : list string;
  scene : list string;
  organizing_thread : option OrganizerThread
}.

(** [init_ui]: a combo box that has just been filled shows its first text,
    a check box is not checked, a button is enabled. *)
Definition init_ui : PhotoOrganizerApp :=
  mk_app "" "" "Carpeta de origen: No seleccionada"
    "Carpeta de destino: No seleccionada" 0 false true false [] [] None.

(** [organize_method.currentText()]. *)
Definition currentText (app : PhotoOrganizerApp) : string :=
  nth (organize_method app) METHODS "".

Definition select_source_folder (folder : string) (app : PhotoOrganizerApp) :
    PhotoOrganizerApp :=
  if PyStr.is_empty folder then app
  else mk_app folder (dest_folder app)
         ("Carpeta de origen: " +:+ folder) (dest_label app)
         (organize_method app) (copy_mode app) (start_button app) (stop_button app)
         (log_box app) (scene app) (organizing_thread app).

Definition select_dest_folder (folder : string) (app : PhotoOrganizerApp) :
    PhotoOrganizerApp :=
  if PyStr.is_empty folder then app
  else mk_app (source_folder app) folder
         (source_label app) ("Carpeta de destino: " +:+ folder)
         (organize_method app) (copy_mode app) (start_button app) (stop_button app)
         (log_box app) (scene app) (organizing_thread app).

(** [start_organization]; what the thread does once it is started is
    [start], and what it emits reaches the window by [deliver]. *)
Definition start_organization (app : PhotoOrganizerApp) : PhotoOrganizerApp :=
  let method := currentText app in
  let copy_files := copy_mode app in
  mk_app (source_folder app) (dest_folder app) (source_label app) (dest_label app)
    (organize_method app) (copy_mode app) false true
    [] (scene app)
    (Some (new_thread (source_folder app) (dest_folder app) method copy_files)).

Definition stop_organization (app : PhotoOrganizerApp) : PhotoOrganizerApp :=
  match organizing_thread app with
  | Some thread =>
      mk_app (source_folder app) (dest_folder app) (source_label app) (dest_label app)
        (organize_method app) (copy_mode app) (start_button app) (stop_button app)
        (log_box app) (scene app) (Some (stop thread))
  | None => app
  end.

Definition show_image_preview (image_path : string) (app : PhotoOrganizerApp) :
    PhotoOrganizerApp :=
  mk_app (source_folder app) (dest_folder app) (source_label app) (dest_label app)
    (organize_method app) (copy_mode app) (start_button app) (stop_button app)
    (log_box app) [image_path] (organizing_thread app).

(** [log_box.append], the slot of [log_signal]. *)
Definition log_box_append (msg : string) (app : PhotoOrganizerApp) : PhotoOrganizerApp :=
  mk_app (source_folder app) (dest_folder app) (source_label app) (dest_label app)
    (organize_method app) (copy_mode app) (start_button app) (stop_button app)
    (log_box app ++ [msg]) (scene app) (organizing_thread app).

(** An event of the thread reaches the slot that [start_organization] has
    connected to its signal; the calls of the operating system are no
    signals. *)
Definition deliver (ev : event) (app : PhotoOrganizerApp) : PhotoOrganizerApp :=
  match ev with
  | Log msg => log_box_append msg app
  | Preview image_path => show_image_preview image_path app
  | _ => app
  end.

(** What happens to the window: the user answers one of the two dialogs,
    picks a text of the combo box, checks or unchecks the box, clicks one of
    the two buttons, or an event of the thread arrives. *)
Inductive action : Type :=
| ChooseSource (folder : string)
| ChooseDest (folder : string)
| PickMethod (index : nat)
| CheckCopy (checked : bool)
| ClickStart
| ClickStop
| Deliver (ev : event).

(** A button that is not enabled emits no click, and the combo box has
    the three texts only. *)
Definition step (app : PhotoOrganizerApp) (a : action) : PhotoOrganizerApp :=
  match a with
  | ChooseSource folder => select_source_folder folder app
  | ChooseDest folder => select_dest_folder folder app
  | PickMethod index =>
      if index <? length METHODS then
        mk_app (source_folder app) (dest_folder app) (source_label app) (dest_label app)
          index (copy_mode app) (start_button app) (stop_button app)
          (log_box app) (scene app) (organizing_thread app)
      else app
  | CheckCopy checked =>
      mk_app (source_folder app) (dest_folder app) (source_label app) (dest_label app)
        (organize_method app) checked (start_button app) (stop_button app)
        (log_box app) (scene app) (organizing_thread app)
  | ClickStart => if start_button app then start_organization app else app
  | ClickStop => if stop_button app then stop_organization app else app
  | Deliver ev => deliver ev app
  end.

Definition session (l : list action) : PhotoOrganizerApp := fold_left step l init_ui.

(** The events that arrive during a list of actions. *)
Definition delivered (l : list action) : list event :=
  flat_map (fun a => match a with Deliver ev => [ev] | _ => [] end) l.

(** The messages of a trace. *)
Definition lines (t : list event) : list string :=
  flat_map (fun ev => match ev with Log msg => [msg] | _ => [] end) t.

(** What a label shows for a folder. *)
Definition shown (folder : string) : string :=
  if PyStr.is_empty folder then "No seleccionada" else folder.

(** The thread that [start_organization] makes in a window. *)
Definition thread_of (app : PhotoOrganizerApp) : OrganizerThread :=
  new_thread (source_folder app) (dest_folder app) (currentText app) (copy_mode app).

End Gui.

(* ===================================================================== *)
(** * Part II. Properties                                                 *)
(* ===================================================================== *)

(** ** The control flow of [run] *)

Section RunFacts.

Context {W : Type} `{OS W}.

Lemma is_empty_spec (s : string) : PyStr.is_empty s = true <-> s = "".
Proof. destruct s; simpl; split; congruence. Qed.

Lemma is_empty_false (s : string) : s <> "" -> PyStr.is_empty s = false.
Proof. destruct s; simpl; congruence. Qed.

Lemma valid_paths (self : OrganizerThread) :
  source_folder self <> "" -> dest_folder self <> "" ->
  PyStr.is_empty (source_folder self) || PyStr.is_empty (dest_folder self) = false.
Proof. intros Hs Hd. by rewrite !is_empty_false. Qed.

Lemma for_each_nil {A} (body : A -> M unit) (s : state W) :
  for_each [] body s = (Val tt, s, []).
Proof. reflexivity. Qed.

Lemma for_each_cons {A} (x : A) (l : list A) (body : A -> M unit) (s : state W) :
  for_each (x :: l) body s =
    match body x s with
    | (Val _, s1, t1) =>
        match for_each l body s1 with
        | (r, s2, t2) => (r, s2, t1 ++ t2)
        end
    | (Returned, s1, t1) => (Returned, s1, t1)
    | (Raised e, s1, t1) => (Raised e, s1, t1)
    end.
Proof. reflexivity. Qed.

(** With valid paths, [run] is the two loops followed by the completion
    message. *)
Lemma run_valid (ctrl : nat -> bool) walk (s : state W) :
  source_folder (self_ s) <> "" -> dest_folder (self_ s) <> "" ->
  run ctrl walk s =
    match for_each walk (fun '(root, files) =>
            for_each files (fun filename => process_file ctrl root filename)) s with
    | (Val _, s1, t1) => (Val tt, s1, t1 ++ [Log MSG_DONE])
    | (Returned, s1, t1) => (Returned, s1, t1)
    | (Raised e, s1, t1) => (Raised e, s1, t1)
    end.
Proof.
  intros Hs Hd. unfold run, mbind, M_bind, get_self. simpl.
  rewrite (valid_paths _ Hs Hd).
  destruct (for_each walk _ s) as [[[ [] | | e] s1] t1]; reflexivity.
Qed.

Lemma run_invalid (ctrl : nat -> bool) walk (s : state W) :
  source_folder (self_ s) = "" \/ dest_folder (self_ s) = "" ->
  run ctrl walk s = (Returned, s, [Log MSG_MISSING]).
Proof.
  intros Hbad. unfold run, mbind, M_bind, get_self. simpl.
  assert (PyStr.is_empty (source_folder (self_ s))
          || PyStr.is_empty (dest_folder (self_ s)) = true) as ->.
  { destruct Hbad as [-> | ->]; simpl; [done | by rewrite orb_true_r]. }
  reflexivity.
Qed.

(** A loop over a walk without file names does nothing. *)
Lemma walk_no_files (body : string -> string -> M unit) walk (s : state W) :
  walk_files walk = [] ->
  for_each walk (fun '(root, files) => for_each files (body root)) s = (Val tt, s, []).
Proof.
  induction walk as [| [root files] walk IH]; intros Hnone; [done |].
  unfold walk_files in Hnone. simpl in Hnone.
  apply app_eq_nil in Hnone as [-> Hrest].
  rewrite for_each_cons, for_each_nil. by rewrite (IH Hrest).
Qed.



End RunFacts.

Section VisitFacts.

Context {W : Type} `{OS W}.

(** The body of the loop, branch by branch. *)
Lemma process_file_cases (ctrl : nat -> bool) root filename (s : state W) :
  let p := posixpath.join root [filename] in
  let self := self_at ctrl s in
  let n := S (checks s) in
  let d := generate_dest_path self (get_photo_date (world s) p) filename in
  let dir := posixpath.dirname d in
  process_file ctrl root filename s =
    if stop_flag self then (Returned, mk_state self (world s) n, [Log MSG_STOPPED])
    else if negb (os_path_isfile (world s) p)
            || negb (is_image p) && negb (is_video p)
    then (Val tt, mk_state self (world s) n, [])
    else
      match os_makedirs dir (world s) with
      | (w1, Some e) => (Raised e, mk_state self w1 n, [Preview p; Makedirs dir])
      | (w1, None) =>
          if copy_files self then
            match shutil_copy2 p d w1 with
            | (w2, None) =>
                (Val tt, mk_state self w2 n,
                 [Preview p; Makedirs dir; Copy2 p d; Log (msg_copied filename d)])
            | (w2, Some e) =>
                (Val tt, mk_state self w2 n,
                 [Preview p; Makedirs dir; Copy2 p d; Log (msg_error filename e)])
            end
          else
            match shutil_move p d w1 with
            | (w2, None) =>
                (Val tt, mk_state self w2 n,
                 [Preview p; Makedirs dir; Move p d; Log (msg_moved filename d)])
            | (w2, Some e) =>
                (Val tt, mk_state self w2 n,
                 [Preview p; Makedirs dir; Move p d; Log (msg_error filename e)])
            end
      end.
Proof.
  intros p self n d dir.
  unfold process_file, mbind, M_bind, observe_flag, read, get_self, call, emit,
    return_, raise, mret, M_ret, check_stop_flag.
  fold p. fold (self_at ctrl s). fold self. fold n.
  destruct (stop_flag self) eqn:Hflag; simpl; [reflexivity |].
  destruct (os_path_isfile (world s) p) eqn:Hfile; simpl; [| reflexivity].
  destruct (negb (is_image p) && negb (is_video p)); simpl; [reflexivity |].
  fold d. fold dir.
  destruct (os_makedirs dir (world s)) as [w1 [e |]]; simpl; [reflexivity |].
  destruct (copy_files self); simpl.
  - destruct (shutil_copy2 p d w1) as [w2 [e |]]; reflexivity.
  - destruct (shutil_move p d w1) as [w2 [e |]]; reflexivity.
Qed.

Lemma msg_copied_not_done filename d : Log (msg_copied filename d) <> Log MSG_DONE.
Proof. unfold msg_copied, MSG_DONE. simpl. discriminate. Qed.

Lemma msg_moved_not_done filename d : Log (msg_moved filename d) <> Log MSG_DONE.
Proof. unfold msg_moved, MSG_DONE. simpl. discriminate. Qed.

Lemma msg_error_not_done filename e : Log (msg_error filename e) <> Log MSG_DONE.
Proof. unfold msg_error, MSG_DONE. simpl. discriminate. Qed.

Lemma stop_flag_self_at (ctrl : nat -> bool) (s : state W) :
  stop_flag (self_at ctrl s) = stop_flag (self_ s) || ctrl (checks s).
Proof.
  unfold self_at. destruct (ctrl (checks s)); simpl.
  - by rewrite orb_true_r.
  - by rewrite orb_false_r.
Qed.

Lemma flag_inv_step self (ctrl : nat -> bool) (s : state W) (w : W) :
  flag_inv self ctrl s ->
  flag_inv self ctrl (mk_state (self_at ctrl s) w (S (checks s))).
Proof.
  unfold flag_inv. cbn [self_ checks]. intros Hinv.
  rewrite stop_flag_self_at, Hinv, seq_S, existsb_app. cbn [existsb plus].
  by rewrite orb_false_r, orb_assoc.
Qed.

Lemma saw_stop_step self (ctrl : nat -> bool) (s : state W) (w : W) :
  flag_inv self ctrl s -> stop_flag (self_at ctrl s) = true ->
  saw_stop self ctrl (mk_state (self_at ctrl s) w (S (checks s))).
Proof.
  intros Hinv Hflag. exists (checks s). simpl. split; [lia |].
  apply (flag_inv_step self ctrl s w) in Hinv. unfold flag_inv in Hinv.
  cbn [self_ checks] in Hinv. unfold flag_seen. by rewrite <- Hinv.
Qed.

(** A visit never emits the completion message, and it leaves [run] by
    [return] only after it has read the flag and found it set. *)
Lemma process_file_post self (ctrl : nat -> bool) root filename (s s' : state W) r t :
  flag_inv self ctrl s ->
  process_file ctrl root filename s = (r, s', t) ->
  Forall not_done t /\ flag_inv self ctrl s' /\ (r = Returned -> saw_stop self ctrl s').
Proof.
  intros Hinv. rewrite process_file_cases. cbv zeta.
  destruct (stop_flag (self_at ctrl s)) eqn:Hflag.
  { intros [= <- <- <-]. split; [| split].
    - repeat constructor. unfold not_done, MSG_DONE, MSG_STOPPED. discriminate.
    - by apply flag_inv_step.
    - intros _. by apply saw_stop_step. }
  destruct (_ || _).
  { intros [= <- <- <-].
    split; [constructor | split; [by apply flag_inv_step | discriminate]]. }
  destruct (os_makedirs _ _) as [w1 [e |]].
  { intros [= <- <- <-]. split; [| split; [by apply flag_inv_step | discriminate]].
    repeat constructor; unfold not_done; discriminate. }
  destruct (copy_files _).
  - destruct (shutil_copy2 _ _ _) as [w2 [e |]]; intros [= <- <- <-];
      (split; [| split; [by apply flag_inv_step | discriminate]]);
      repeat constructor; unfold not_done;
      try discriminate; auto using msg_copied_not_done, msg_error_not_done.
  - destruct (shutil_move _ _ _) as [w2 [e |]]; intros [= <- <- <-];
      (split; [| split; [by apply flag_inv_step | discriminate]]);
      repeat constructor; unfold not_done;
      try discriminate; auto using msg_moved_not_done, msg_error_not_done.
Qed.

(** What holds of every round of a loop holds of the loop. *)
Lemma for_each_post {A} (body : A -> M unit) (P : event -> Prop)
    (J Q : state W -> Prop) :
  (forall x s r s' t, J s -> body x s = (r, s', t) ->
     Forall P t /\ J s' /\ (r = Returned -> Q s')) ->
  forall l s r s' t, J s -> for_each l body s = (r, s', t) ->
    Forall P t /\ J s' /\ (r = Returned -> Q s').
Proof.
  intros Hbody. induction l as [| x l IH]; intros s r s' t Hj.
  - rewrite for_each_nil. intros [= <- <- <-].
    split; [constructor | split; [exact Hj | discriminate]].
  - rewrite for_each_cons.
    destruct (body x s) as [[r1 s1] t1] eqn:Hx.
    destruct (Hbody _ _ _ _ _ Hj Hx) as (Ht1 & Hj1 & Hq1).
    destruct r1 as [[] | | e].
    + destruct (for_each l body s1) as [[r2 s2] t2] eqn:Hl.
      destruct (IH _ _ _ _ Hj1 Hl) as (Ht2 & Hj2 & Hq2).
      intros [= <- <- <-]. split; [by apply Forall_app | split; assumption].
    + intros [= <- <- <-]. split; [exact Ht1 | split; [exact Hj1 | intros _; by apply Hq1]].
    + intros [= <- <- <-]. split; [exact Ht1 | split; [exact Hj1 | discriminate]].
Qed.

Lemma walk_post self (ctrl : nat -> bool) walk (s s' : state W) r t :
  flag_inv self ctrl s ->
  for_each walk (fun '(root, files) =>
      for_each files (fun filename => process_file ctrl root filename)) s = (r, s', t) ->
  Forall not_done t /\ flag_inv self ctrl s' /\ (r = Returned -> saw_stop self ctrl s').
Proof.
  apply (for_each_post _ not_done (flag_inv self ctrl) (saw_stop self ctrl)).
  intros [root files] s0 r0 s0' t0.
  apply (for_each_post _ not_done (flag_inv self ctrl) (saw_stop self ctrl)).
  intros filename s1 r1 s1' t1. apply process_file_post.
Qed.

Lemma count_log_app msg (t1 t2 : list event) :
  count_log msg (t1 ++ t2) = count_log msg t1 + count_log msg t2.
Proof. unfold count_log. by rewrite List.filter_app, length_app. Qed.

Lemma count_log_absent msg (t : list event) :
  Forall (fun ev => ev <> Log msg) t -> count_log msg t = 0.
Proof.
  unfold count_log. induction 1 as [| ev t Hev _ IH]; [done |].
  simpl. destruct (is_log msg ev) eqn:Hlog; [| exact IH].
  destruct ev; simpl in Hlog; try discriminate.
  apply String.eqb_eq in Hlog. by subst.
Qed.

End VisitFacts.

(** ** Claims about the control flow *)

(** C6. When the source path or the destination path is empty, [run] emits
    the one log message about the missing folders and returns at once: the
    trace holds nothing else (no preview, no directory creation, no copy or
    move) and the world is the one it started in. *)
Theorem C6_missing_path_logs_once_and_returns {W : Type} `{OS W}
    (self : OrganizerThread) (ctrl : nat -> bool)
    (walk : list (string * list string)) (w : W) :
  source_folder self = "" \/ dest_folder self = "" ->
  start self ctrl walk w = (Returned, mk_state self w 0, [Log MSG_MISSING]).
Proof. intros Hbad. unfold start. by rewrite run_invalid. Qed.

Lemma C6_witness :
  (source_folder (new_thread "/src" "" "Año/Mes" true) = ""
   \/ dest_folder (new_thread "/src" "" "Año/Mes" true) = "") /\
  start (new_thread "/src" "" "Año/Mes" true) never Sample.photos_walk Sample.photos
  = (Returned, mk_state (new_thread "/src" "" "Año/Mes" true) Sample.photos 0,
     [Log MSG_MISSING]).
Proof.
  split; [right; reflexivity |].
  apply C6_missing_path_logs_once_and_returns. right; reflexivity.
Defined.

(** C10. With both paths given, a walk that yields no file name (the source
    directory does not exist, so that [os.walk] yields nothing, or it holds
    no files) ends in the completion message alone: no relocation, no error
    message, the world unchanged, whatever the flag is. *)
Theorem C10_no_files_only_completion {W : Type} `{OS W}
    (self : OrganizerThread) (ctrl : nat -> bool)
    (walk : list (string * list string)) (w : W) :
  source_folder self <> "" -> dest_folder self <> "" ->
  walk_files walk = [] ->
  start self ctrl walk w = (Val tt, mk_state self w 0, [Log MSG_DONE]).
Proof.
  intros Hs Hd Hnone. unfold start.
  rewrite run_valid by done. by rewrite walk_no_files.
Qed.

Lemma C10_witness :
  source_folder Sample.by_month <> "" /\ dest_folder Sample.by_month <> "" /\
  walk_files Sample.bare_walk = [] /\
  start Sample.by_month never Sample.bare_walk Sample.bare
  = (Val tt, mk_state Sample.by_month Sample.bare 0, [Log MSG_DONE]).
Proof.
  split; [discriminate |]. split; [discriminate |]. split; [reflexivity |].
  apply C10_no_files_only_completion; [discriminate | discriminate | reflexivity].
Defined.




(** C7. With both paths given, a run that is not ended by an exception and
    in which no reading of the flag finds it set emits the completion
    message exactly once, as the last event of its trace. *)
Theorem C7_one_completion_message_last {W : Type} `{OS W}
    (self : OrganizerThread) (ctrl : nat -> bool)
    (walk : list (string * list string)) (w : W)
    (r : result unit) (s : state W) (t : list event) :
  source_folder self <> "" -> dest_folder self <> "" ->
  start self ctrl walk w = (r, s, t) ->
  (forall e, r <> Raised e) ->
  (forall k, k < checks s -> flag_seen self ctrl k = false) ->
  r = Val tt /\
  count_log MSG_DONE t = 1 /\
  exists t0, t = t0 ++ [Log MSG_DONE].
Proof.
  intros Hs Hd Hrun Hno_exn Hno_stop. unfold start in Hrun.
  rewrite run_valid in Hrun by done.
  destruct (for_each walk _ _) as [[r1 s1] t1] eqn:Hloop.
  apply (walk_post self ctrl) in Hloop as (Hdone & _ & Hret).
  2: { unfold flag_inv. simpl. by rewrite orb_false_r. }
  destruct r1 as [[] | | e].
  - injection Hrun as <- <- <-. split; [done |]. split; [| by exists t1].
    rewrite count_log_app, (count_log_absent _ t1) by exact Hdone.
    reflexivity.
  - injection Hrun as <- <- <-.
    destruct (Hret eq_refl) as (k & Hk & Hseen).
    rewrite (Hno_stop k Hk) in Hseen. discriminate.
  - injection Hrun as <- <- <-. by destruct (Hno_exn e).
Qed.

Lemma C7_witness :
  source_folder Sample.by_month <> "" /\ dest_folder Sample.by_month <> "" /\
  count_log MSG_DONE
    (start Sample.by_month never Sample.photos_walk Sample.photos).2 = 1.
Proof.
  split; [discriminate |]. split; [discriminate |].
  refine (proj1 (proj2
    (C7_one_completion_message_last Sample.by_month never Sample.photos_walk
       Sample.photos
       (start Sample.by_month never Sample.photos_walk Sample.photos).1.1
       (start Sample.by_month never Sample.photos_walk Sample.photos).1.2
       (start Sample.by_month never Sample.photos_walk Sample.photos).2
       _ _ _ _ _))).
  - discriminate.
  - discriminate.
  - reflexivity.
  - intros e. vm_compute. discriminate.
  - intros k Hk. vm_compute in Hk.
    destruct k as [| [| k]]; [reflexivity | reflexivity | lia].
Defined.

(** ** Classification by extension *)







(** ** Failures of one file *)

(** An exception of [shutil.copy2] or [shutil.move] is caught in the visit:
    the visit ends normally and its last event is the failure log with the
    file name and the text of the exception. *)
Lemma relocation_exception_is_logged {W : Type} `{OS W}
    (ctrl : nat -> bool) (root filename : string) (s : state W) (e : string) :
  let p := posixpath.join root [filename] in
  let self := self_at ctrl s in
  let d := generate_dest_path self (get_photo_date (world s) p) filename in
  let w1 := (os_makedirs (posixpath.dirname d) (world s)).1 in
  stop_flag self = false ->
  os_path_isfile (world s) p = true ->
  negb (is_image p) && negb (is_video p) = false ->
  (os_makedirs (posixpath.dirname d) (world s)).2 = None ->
  (if copy_files self then shutil_copy2 p d w1 else shutil_move p d w1).2 = Some e ->
  exists s' t0,
    process_file ctrl root filename s = (Val tt, s', t0 ++ [Log (msg_error filename e)]).
Proof.
  intros p self d w1 Hflag Hfile Hsup Hdirs Hfail.
  rewrite process_file_cases. cbv zeta. fold p self d. rewrite Hflag, Hfile, Hsup. simpl.
  subst w1. destruct (os_makedirs _ _) as [w1 r1]. simpl in *. subst r1.
  destruct (copy_files self).
  - destruct (shutil_copy2 p d w1) as [w2 r2]. simpl in Hfail. subst r2.
    by eexists _, [_; _; _].
  - destruct (shutil_move p d w1) as [w2 r2]. simpl in Hfail. subst r2.
    by eexists _, [_; _; _].
Qed.

(** An exception of [os.makedirs] is not caught: it ends the visit, and with
    it the run, and no log is emitted for it. *)
Lemma makedirs_exception_escapes {W : Type} `{OS W}
    (ctrl : nat -> bool) (root filename : string) (s : state W) (e : string) :
  let p := posixpath.join root [filename] in
  let self := self_at ctrl s in
  let d := generate_dest_path self (get_photo_date (world s) p) filename in
  stop_flag self = false ->
  os_path_isfile (world s) p = true ->
  negb (is_image p) && negb (is_video p) = false ->
  (os_makedirs (posixpath.dirname d) (world s)).2 = Some e ->
  exists s',
    process_file ctrl root filename s
    = (Raised e, s', [Preview p; Makedirs (posixpath.dirname d)]).
Proof.
  intros p self d Hflag Hfile Hsup Hfail.
  rewrite process_file_cases. cbv zeta. fold p self d. rewrite Hflag, Hfile, Hsup. simpl.
  destruct (os_makedirs _ _) as [w1 r1]. simpl in Hfail. subst r1. by eexists.
Qed.

(** C1 does not hold of the code: [os.makedirs] is called before the [try]
    block. Here the destination holds a regular file named [2021]; creating
    the directory for the first photograph raises, the exception leaves
    [run], no failure log is emitted and the second photograph is never
    visited. *)
Theorem C1_makedirs_failure_ends_run :
  start Sample.by_month never Sample.blocked_walk Sample.blocked
  = (Raised "[Errno 20] Not a directory: '/dest/2021/05'",
     mk_state Sample.by_month Sample.blocked 1,
     [Preview "/src/a.jpg"; Makedirs "/dest/2021/05"]).
Proof. vm_compute. reflexivity. Qed.

(** ** Destination paths *)

Section PathFacts.
Import PyStr posixpath.

#[local] Arguments String.append !s1 s2 : simpl nomatch.

Lemma append_assoc (a b c : string) : (a +:+ b) +:+ c = a +:+ (b +:+ c).
Proof. induction a as [| x a IH]; simpl; [done | by rewrite IH]. Qed.

Lemma append_nil_r (a : string) : a +:+ "" = a.
Proof. induction a as [| x a IH]; simpl; [done | by rewrite IH]. Qed.

Lemma is_empty_append (a b : string) :
  is_empty b = false -> is_empty (a +:+ b) = false.
Proof. destruct a; simpl; done. Qed.

Lemma endswith_append (c : ascii) (a b : string) :
  is_empty b = false -> endswith c (a +:+ b) = endswith c b.
Proof.
  intros Hb. induction a as [| x a IH]; [done |].
  simpl. rewrite IH. destruct (a +:+ b) eqn:Hab; [| done].
  destruct a, b; simpl in *; discriminate.
Qed.

Lemma contains_append (c : ascii) (a b : string) :
  contains c (a +:+ b) = contains c a || contains c b.
Proof. induction a as [| x a IH]; simpl; [done | by rewrite IH, orb_assoc]. Qed.

Lemma contains_startswith (c : ascii) (s : string) :
  contains c s = false -> startswith c s = false.
Proof. destruct s; simpl; [done |]. by intros [? ?]%orb_false_elim. Qed.

Lemma contains_endswith (c : ascii) (s : string) :
  contains c s = false -> endswith c s = false.
Proof.
  induction s as [| x s IH]; [done |]. simpl.
  intros [Hx Hs]%orb_false_elim. destruct s; [exact Hx | by apply IH].
Qed.

(** [str n] is a non-empty run of decimal digits. *)
Lemma string_of_uint_no_sep (u : Decimal.uint) :
  contains sep (NilEmpty.string_of_uint u) = false.
Proof. induction u; simpl; done. Qed.

Lemma str_no_sep (n : nat) : contains sep (str n) = false.
Proof.
  unfold str, NilZero.string_of_uint.
  destruct (Nat.to_uint n) eqn:Hu; try (rewrite <- Hu; apply string_of_uint_no_sep).
  reflexivity.
Qed.

Lemma str_not_empty (n : nat) : is_empty (str n) = false.
Proof. unfold str, NilZero.string_of_uint. by destruct (Nat.to_uint n). Qed.

Lemma fmt_02d_no_sep (n : nat) : contains sep (fmt_02d n) = false.
Proof.
  unfold fmt_02d. destruct (_ <? 2); [| apply str_no_sep].
  simpl. apply str_no_sep.
Qed.

Lemma fmt_02d_not_empty (n : nat) : is_empty (fmt_02d n) = false.
Proof. unfold fmt_02d. destruct (_ <? 2); [done | apply str_not_empty]. Qed.

(** Below 100, [f"{n:02d}"] is the two digits of [n]. *)
Lemma fmt_02d_two_dec (n : nat) : n < 100 -> fmt_02d n = two_dec n.
Proof.
  intros Hn.
  assert (forallb (fun k => String.eqb (fmt_02d k) (two_dec k)) (seq 0 100) = true)
    as Hall by (vm_compute; reflexivity).
  rewrite forallb_forall in Hall. apply String.eqb_eq, Hall, in_seq. lia.
Qed.

Lemma join_step_plain (a b : string) :
  startswith sep b = false -> join_step a b = as_dir a +:+ b.
Proof.
  intros Hb. unfold join_step, as_dir. rewrite Hb.
  destruct (is_empty a || endswith sep a); [done |].
  by rewrite append_assoc.
Qed.

(** After a component that is not empty and has no separator, the next one
    is set off by a separator. *)
Lemma as_dir_append (a b : string) :
  is_empty b = false -> contains sep b = false ->
  as_dir (a +:+ b) = a +:+ b +:+ "/".
Proof.
  intros Hne Hsep. unfold as_dir.
  rewrite is_empty_append, endswith_append, contains_endswith by done.
  simpl. by rewrite append_assoc.
Qed.

Lemma join_one (a b : string) :
  startswith sep b = false -> join a [b] = as_dir a +:+ b.
Proof. intros Hb. unfold join. simpl. by apply join_step_plain. Qed.

Lemma join_two (a b f : string) :
  is_empty b = false -> contains sep b = false -> startswith sep f = false ->
  join a [b; f] = as_dir a +:+ b +:+ "/" +:+ f.
Proof.
  intros Hb1 Hb2 Hf. unfold join. simpl.
  rewrite (join_step_plain a b) by by apply contains_startswith.
  rewrite join_step_plain by done.
  rewrite as_dir_append by done. by rewrite !append_assoc.
Qed.

Lemma join_three (a b c f : string) :
  is_empty b = false -> contains sep b = false ->
  is_empty c = false -> contains sep c = false ->
  startswith sep f = false ->
  join a [b; c; f] = as_dir a +:+ b +:+ "/" +:+ c +:+ "/" +:+ f.
Proof.
  intros Hb1 Hb2 Hc1 Hc2 Hf.
  change (join a [b; c; f]) with (join (join a [b; c]) [f]).
  rewrite join_one by done.
  rewrite join_two by (try done; by apply contains_startswith).
  replace (as_dir a +:+ b +:+ "/" +:+ c) with ((as_dir a +:+ b +:+ "/") +:+ c)
    by by rewrite !append_assoc.
  rewrite as_dir_append by done. by rewrite !append_assoc.
Qed.

Lemma join_four (a b c e f : string) :
  is_empty b = false -> contains sep b = false ->
  is_empty c = false -> contains sep c = false ->
  is_empty e = false -> contains sep e = false ->
  startswith sep f = false ->
  join a [b; c; e; f] = as_dir a +:+ b +:+ "/" +:+ c +:+ "/" +:+ e +:+ "/" +:+ f.
Proof.
  intros Hb1 Hb2 Hc1 Hc2 He1 He2 Hf.
  change (join a [b; c; e; f]) with (join (join a [b; c; e]) [f]).
  rewrite join_one by done.
  rewrite join_three by (try done; by apply contains_startswith).
  replace (as_dir a +:+ b +:+ "/" +:+ c +:+ "/" +:+ e)
    with ((as_dir a +:+ b +:+ "/" +:+ c +:+ "/") +:+ e)
    by by rewrite !append_assoc.
  rewrite as_dir_append by done. by rewrite !append_assoc.
Qed.

Lemma generate_dest_path_closed (self : OrganizerThread) (d : datetime) (f : string) :
  startswith sep f = false ->
  generate_dest_path self d f
  = as_dir (dest_folder self) +:+ date_dirs (method self) d +:+ f.
Proof.
  intros Hf. unfold generate_dest_path, date_dirs.
  destruct (String.eqb (method self) METHOD_YEAR_MONTH).
  { rewrite join_three
      by auto using str_no_sep, str_not_empty, fmt_02d_no_sep, fmt_02d_not_empty.
    by rewrite ?append_assoc. }
  destruct (String.eqb (method self) METHOD_YEAR_MONTH_DAY).
  { rewrite join_four
      by auto using str_no_sep, str_not_empty, fmt_02d_no_sep, fmt_02d_not_empty.
    by rewrite ?append_assoc. }
  rewrite join_two by done. by rewrite ?append_assoc.
Qed.

End PathFacts.

Section DestinationClaims.
Import PyStr posixpath.

#[local] Arguments String.append !s1 s2 : simpl nomatch.

Lemma rcut_absent (c : ascii) (s : string) :
  contains c s = false -> rcut c s = ("", s).
Proof.
  induction s as [| a s IH]; [done |]. simpl.
  intros [Ha Hs]%orb_false_elim. by rewrite (IH Hs), Ha.
Qed.

Lemma rcut_last (c : ascii) (x f : string) :
  contains c f = false -> rcut c (x +:+ String c f) = (x +:+ String c "", f).
Proof.
  intros Hf. induction x as [| a x IH]; simpl.
  - by rewrite (rcut_absent c f Hf), Ascii.eqb_refl.
  - rewrite IH. by destruct x.
Qed.

Lemma date_dirs_ends (meth : string) (d : datetime) :
  exists x, date_dirs meth d = x +:+ "/".
Proof.
  unfold date_dirs.
  destruct (String.eqb meth METHOD_YEAR_MONTH).
  { exists (str (year d) +:+ "/" +:+ fmt_02d (month d)). by rewrite !append_assoc. }
  destruct (String.eqb meth METHOD_YEAR_MONTH_DAY).
  { exists (str (year d) +:+ "/" +:+ fmt_02d (month d) +:+ "/" +:+ fmt_02d (day d)).
    by rewrite !append_assoc. }
  by exists "Evento_Personalizado".
Qed.

(** C3. For a file name [f] (which does not start with a separator), a month
    up to 12 and a day up to 31, the destination path is the destination
    folder taken as a directory, then the year, a separator and the two
    digits of the month for the method by year and month; the same followed
    by a separator and the two digits of the day for the method by year,
    month and day; [Evento_Personalizado] for every other method; then a
    separator and [f]. Nothing else enters the path: the directory in which
    the walk found the file does not. *)
Theorem C3_destination_path_by_method (self : OrganizerThread) (d : datetime)
    (f : string) :
  startswith sep f = false -> month d <= 12 -> day d <= 31 ->
  generate_dest_path self d f
  = as_dir (dest_folder self) +:+
    (if String.eqb (method self) "Año/Mes" then
       str (year d) +:+ "/" +:+ two_dec (month d) +:+ "/" +:+ f
     else if String.eqb (method self) "Año/Mes/Día" then
       str (year d) +:+ "/" +:+ two_dec (month d) +:+ "/" +:+
       two_dec (day d) +:+ "/" +:+ f
     else "Evento_Personalizado" +:+ "/" +:+ f).
Proof.
  intros Hf Hm Hd. rewrite generate_dest_path_closed by done.
  unfold date_dirs. change METHOD_YEAR_MONTH with "Año/Mes".
  change METHOD_YEAR_MONTH_DAY with "Año/Mes/Día".
  rewrite <- !fmt_02d_two_dec by lia.
  destruct (String.eqb (method self) "Año/Mes"); [by rewrite !append_assoc |].
  destruct (String.eqb (method self) "Año/Mes/Día"); [by rewrite !append_assoc |].
  done.
Qed.

Lemma C3_witness :
  generate_dest_path (new_thread "/src/deep/nest" "/dest" "Año/Mes/Día" true)
    (mk_datetime 2020 1 15 8 0 0) "c.mp4"
  = "/dest/2020/01/15/c.mp4".
Proof.
  rewrite C3_destination_path_by_method; [reflexivity | reflexivity | | ];
    simpl; lia.
Defined.

(** C9. For a file name [f] (without separator), the destination path starts
    with the destination folder and its last component is [f] itself; and
    two capture dates in the same bucket of the method give the same path
    for the same name. *)
Theorem C9_destination_root_and_name (self : OrganizerThread) (d : datetime)
    (f : string) :
  contains sep f = false ->
  (exists rest, generate_dest_path self d f = dest_folder self +:+ rest) /\
  basename (generate_dest_path self d f) = f /\
  (forall d', bucket (method self) d' = bucket (method self) d ->
     generate_dest_path self d' f = generate_dest_path self d f).
Proof.
  intros Hf. pose proof (contains_startswith _ _ Hf) as Hstart.
  split; [| split].
  - rewrite generate_dest_path_closed by done. unfold as_dir.
    destruct (is_empty _ || endswith _ _); eexists; [reflexivity |].
    rewrite append_assoc. reflexivity.
  - rewrite generate_dest_path_closed by done.
    destruct (date_dirs_ends (method self) d) as [x ->].
    unfold basename.
    replace (as_dir (dest_folder self) +:+ (x +:+ "/") +:+ f)
      with ((as_dir (dest_folder self) +:+ x) +:+ String sep f)
      by by rewrite !append_assoc.
    by rewrite rcut_last.
  - intros d' Hb. unfold generate_dest_path. unfold bucket in Hb.
    destruct (String.eqb (method self) METHOD_YEAR_MONTH).
    { by injection Hb as -> ->. }
    destruct (String.eqb (method self) METHOD_YEAR_MONTH_DAY).
    { by injection Hb as -> -> ->. }
    reflexivity.
Qed.

Lemma C9_witness :
  contains sep "a.jpg" = false /\
  basename (generate_dest_path Sample.by_month (mk_datetime 2021 5 3 10 0 0) "a.jpg")
  = "a.jpg".
Proof.
  split; [reflexivity |].
  exact (proj1 (proj2 (C9_destination_root_and_name Sample.by_month
                         (mk_datetime 2021 5 3 10 0 0) "a.jpg" eq_refl))).
Defined.

End DestinationClaims.

(** ** Capture dates *)

Section StrptimeFacts.
Import Strptime.

#[local] Arguments String.append !s1 s2 : simpl nomatch.

Lemma heads_bind {A B} (m : matcher A) (k : A -> matcher B) s a r b r' :
  heads m s a r -> heads (k a) r b r' -> heads (mbind m k) s b r'.
Proof.
  intros [j1 H1] [j2 H2]. unfold heads, mbind. rewrite H1. simpl.
  rewrite H2. by eexists.
Qed.

Lemma heads_ret {A} (a : A) s : heads (mret a) s a s.
Proof. by exists []. Qed.

Lemma heads_lit (c : ascii) s : heads (lit c) (String c s) tt s.
Proof. exists []. unfold lit. by rewrite Ascii.eqb_refl. Qed.

Lemma digit_in_any (k : nat) (r : string) :
  k < 10 -> digit_in 0 9 (String (ascii_of_nat (48 + k)) r) = [(k, r)].
Proof.
  intros Hk. do 10 (destruct k as [| k]; [reflexivity |]). lia.
Qed.

Lemma dir_Y_digits (a b c e : nat) (r : string) :
  a < 10 -> b < 10 -> c < 10 -> e < 10 ->
  dir_Y (String (ascii_of_nat (48 + a)) (String (ascii_of_nat (48 + b))
          (String (ascii_of_nat (48 + c)) (String (ascii_of_nat (48 + e)) r))))
  = [(1000 * a + 100 * b + 10 * c + e, r)].
Proof.
  intros Ha Hb Hc He. unfold dir_Y, mbind, mret.
  rewrite (digit_in_any a) by done. cbn [flat_map app].
  rewrite (digit_in_any b) by done. cbn [flat_map app].
  rewrite (digit_in_any c) by done. cbn [flat_map app].
  rewrite (digit_in_any e) by done. cbn [flat_map app].
  reflexivity.
Qed.

Lemma heads_dir_Y (y : nat) (r : string) :
  y < 10 * 1000 -> heads dir_Y (four_dec y +:+ r) y r.
Proof.
  intros Hy. exists [].
  assert (y / 1000 < 10) by (apply Nat.Div0.div_lt_upper_bound; lia).
  assert ((y / 100) mod 10 < 10) by (apply Nat.mod_upper_bound; lia).
  pose proof (Nat.mod_upper_bound y 100).
  assert (y mod 100 / 10 < 10) by (apply Nat.Div0.div_lt_upper_bound; lia).
  assert ((y mod 100) mod 10 < 10) by (apply Nat.mod_upper_bound; lia).
  unfold four_dec, two_dec. cbn [String.append].
  rewrite dir_Y_digits by done.
  do 2 f_equal.
  pose proof (Nat.div_mod_eq y 100). pose proof (Nat.div_mod_eq (y / 100) 10).
  pose proof (Nat.div_mod_eq (y mod 100) 10).
  assert (y / 1000 = y / 100 / 10) by (rewrite Nat.Div0.div_div; reflexivity).
  lia.
Qed.

Lemma heads_dir_m (n : nat) (r : string) :
  1 <= n <= 12 -> heads dir_m (two_dec n +:+ r) n r.
Proof.
  intros Hn. unfold heads. destruct n as [| n]; [lia |].
  do 12 (destruct n as [| n]; [vm_compute; by eexists |]). lia.
Qed.

Lemma heads_dir_d (n : nat) (r : string) :
  1 <= n <= 31 -> heads dir_d (two_dec n +:+ r) n r.
Proof.
  intros Hn. unfold heads. destruct n as [| n]; [lia |].
  do 31 (destruct n as [| n]; [vm_compute; by eexists |]). lia.
Qed.

Lemma heads_dir_H (n : nat) (r : string) :
  n <= 23 -> heads dir_H (two_dec n +:+ r) n r.
Proof.
  intros Hn. unfold heads.
  do 24 (destruct n as [| n]; [vm_compute; by eexists |]). lia.
Qed.

Lemma heads_dir_M (n : nat) (r : string) :
  n <= 59 -> heads dir_M (two_dec n +:+ r) n r.
Proof.
  intros Hn. unfold heads.
  do 60 (destruct n as [| n]; [vm_compute; by eexists |]). lia.
Qed.

Lemma heads_dir_S (n : nat) (r : string) :
  n <= 59 -> heads dir_S (two_dec n +:+ r) n r.
Proof.
  intros Hn. unfold heads.
  do 60 (destruct n as [| n]; [vm_compute; by eexists |]). lia.
Qed.

(** One blank before an hour. *)
Lemma heads_spaces1 (n : nat) (r : string) :
  n <= 23 -> heads spaces1 (" " +:+ two_dec n +:+ r) tt (two_dec n +:+ r).
Proof.
  intros Hn. unfold heads.
  do 24 (destruct n as [| n]; [vm_compute; by eexists |]). lia.
Qed.

Lemma valid_datetime_bounds (d : datetime) :
  valid_datetime d = true ->
  year d < 10 * 1000 /\ 1 <= month d <= 12 /\ 1 <= day d <= 31 /\
  hour d <= 23 /\ minute d <= 59 /\ second d <= 59.
Proof.
  unfold valid_datetime. rewrite !andb_true_iff, !Nat.leb_le.
  intros ((((((((Hy1 & Hy2) & Hm1) & Hm2) & Hd1) & Hd2) & Hh) & Hmi) & Hs).
  assert (9999 = 9 * 1000 + 999) as Hmax by (vm_compute; reflexivity).
  rewrite Hmax in Hy2.
  assert (days_in_month (year d) (month d) <= 31).
  { unfold days_in_month. generalize (month d). intros m.
    destruct (is_leap (year d));
      do 13 (destruct m as [| m]; [simpl; lia |]); simpl; lia. }
  lia.
Qed.


End StrptimeFacts.


(** The photograph of the specification's scenario: its EXIF date wins over
    its modification time. *)
Example capture_date_of_photograph :
  get_photo_date Sample.photos "/src/a.jpg" = mk_datetime 2021 5 3 10 0 0.
Proof. vm_compute. reflexivity. Qed.

(** A file that does not open as an image has its modification time. *)
Example capture_date_of_other_file :
  get_photo_date Sample.photos "/src/b.txt" = mk_datetime 2020 1 1 12 0 0.
Proof. vm_compute. reflexivity. Qed.


(** ** Path names and the paths they denote *)

Section ResolveFacts.
Import PyStr posixpath FS.

#[local] Arguments String.append !s1 s2 : simpl nomatch.

Lemma split_not_nil (c : ascii) (s : string) : split c s <> [].
Proof.
  induction s as [| a s IH]; simpl; [done |].
  destruct (Ascii.eqb a c); [done |]. by destruct (split c s).
Qed.

Lemma split_append (c : ascii) (x y : string) :
  split c (x +:+ String c y) = split c x ++ split c y.
Proof.
  induction x as [| a x IH]; simpl.
  - by rewrite Ascii.eqb_refl.
  - rewrite IH. destruct (Ascii.eqb a c); [done |].
    pose proof (split_not_nil c x). by destruct (split c x).
Qed.

Lemma split_absent (c : ascii) (s : string) :
  contains c s = false -> split c s = [s].
Proof.
  induction s as [| a s IH]; [done |]. simpl.
  intros [Ha Hs]%orb_false_elim. by rewrite Ha, (IH Hs).
Qed.

Lemma push_empty (acc : list string) : push acc "" = acc.
Proof. reflexivity. Qed.

Lemma push_plain (acc : list string) (c : string) :
  plain c = true -> push acc c = acc ++ [c].
Proof.
  unfold plain, push. rewrite !andb_true_iff, !negb_true_iff.
  intros [[[Hne _] Hdot] Hdots]. rewrite Hdot, Hdots.
  destruct c; [done |]. reflexivity.
Qed.

Lemma plain_no_sep (c : string) : plain c = true -> contains sep c = false.
Proof.
  unfold plain. rewrite !andb_true_iff, !negb_true_iff. by intros [[[_ ?] _] _].
Qed.

Lemma resolve_append (x y : string) :
  resolve (x +:+ String sep y) = fold_left push (split sep y) (resolve x).
Proof. unfold resolve. by rewrite split_append, fold_left_app. Qed.

Lemma endswith_inv (c : ascii) (s : string) :
  endswith c s = true -> exists s', s = s' +:+ String c "".
Proof.
  induction s as [| a s IH]; [done |]. simpl. destruct s as [| b s].
  - intros ->%Ascii.eqb_eq. by exists "".
  - intros [s' Hs']%IH. exists (String a s'). simpl. by rewrite <- Hs'.
Qed.

Lemma resolve_as_dir (a z : string) :
  resolve (as_dir a +:+ z) = fold_left push (split sep z) (resolve a).
Proof.
  unfold as_dir. destruct (is_empty a) eqn:Hempty.
  { apply is_empty_spec in Hempty as ->. reflexivity. }
  simpl. destruct (endswith sep a) eqn:Hends.
  - apply endswith_inv in Hends as [a' ->].
    rewrite append_assoc. simpl. by rewrite !resolve_append.
  - rewrite append_assoc. simpl. by rewrite resolve_append.
Qed.

Lemma resolve_as_dir_plain (a c : string) :
  plain c = true -> resolve (as_dir a +:+ c) = resolve a ++ [c].
Proof.
  intros Hc. rewrite resolve_as_dir, split_absent by by apply plain_no_sep.
  simpl. by apply push_plain.
Qed.

Lemma resolve_append_plain (x c : string) :
  plain c = true -> resolve (x +:+ String sep c) = resolve x ++ [c].
Proof.
  intros Hc. rewrite resolve_append, split_absent by by apply plain_no_sep.
  simpl. by apply push_plain.
Qed.

Lemma fold_push_seps (k : string) (acc : list string) :
  all_char sep k = true -> fold_left push (split sep k) acc = acc.
Proof.
  induction k as [| a k IH]; [done |]. simpl.
  intros [Ha Hk]%andb_true_iff. rewrite Ha. simpl. by apply IH.
Qed.

Lemma resolve_trailing (x k : string) :
  all_char sep k = true -> resolve (x +:+ k) = resolve x.
Proof.
  destruct k as [| a k]; [by rewrite append_nil_r |]. simpl.
  intros [->%Ascii.eqb_eq Hk]%andb_true_iff.
  rewrite resolve_append. by apply fold_push_seps.
Qed.

Lemma rstrip_decomp (c : ascii) (s : string) :
  exists k, s = rstrip c s +:+ k /\ all_char c k = true.
Proof.
  induction s as [| a s (k & Hs & Hk)]; [by exists "" |]. simpl.
  destruct (rstrip c s) as [| b r] eqn:Hr.
  - simpl in Hs. destruct (Ascii.eqb a c) eqn:Ha.
    + exists (String a s). split; [done |]. simpl. by rewrite Ha, Hs.
    + exists k. split; [| done]. simpl. congruence.
  - exists k. split; [| done]. simpl in Hs |- *. congruence.
Qed.

Lemma resolve_rstrip (s : string) : resolve (rstrip sep s) = resolve s.
Proof.
  destruct (rstrip_decomp sep s) as (k & Hs & Hk).
  rewrite Hs at 2. by rewrite resolve_trailing.
Qed.

Lemma resolve_dirname (y f : string) :
  contains sep f = false -> resolve (dirname (y +:+ String sep f)) = resolve y.
Proof.
  intros Hf. unfold dirname. rewrite rcut_last by done. simpl.
  assert (resolve (y +:+ String sep "") = resolve y) as Hy.
  { by rewrite resolve_append. }
  destruct (negb _ && negb _); [by rewrite resolve_rstrip |]; done.
Qed.

Lemma fold_push_plain (comps acc : list string) :
  forallb plain comps = true -> fold_left push comps acc = acc ++ comps.
Proof.
  revert acc. induction comps as [| c comps IH]; intros acc; simpl.
  - by rewrite app_nil_r.
  - intros [Hc Hrest]%andb_true_iff. rewrite push_plain by done.
    rewrite IH by done. by rewrite <- app_assoc.
Qed.

Lemma split_sep_join (c : string) (comps : list string) :
  forallb plain (c :: comps) = true -> split sep (sep_join (c :: comps)) = c :: comps.
Proof.
  revert c. induction comps as [| c' comps IH]; intros c; simpl.
  - rewrite andb_true_r. intros Hc. by apply split_absent, plain_no_sep.
  - intros [Hc Hrest]%andb_true_iff. rewrite split_append.
    rewrite (split_absent _ c) by by apply plain_no_sep.
    simpl. f_equal. by apply IH.
Qed.

Lemma sep_join_snoc (c : string) (comps : list string) (f : string) :
  sep_join ((c :: comps) ++ [f]) = sep_join (c :: comps) +:+ String sep f.
Proof.
  revert c. induction comps as [| c' comps IH]; intros c; [done |].
  change (sep_join ((c :: c' :: comps) ++ [f]))
    with (c +:+ String sep (sep_join ((c' :: comps) ++ [f]))).
  rewrite IH.
  change (sep_join (c :: c' :: comps)) with (c +:+ String sep (sep_join (c' :: comps))).
  rewrite append_assoc. reflexivity.
Qed.

Lemma resolve_sep_join (a : string) (comps : list string) :
  forallb plain comps = true ->
  resolve (as_dir a +:+ sep_join comps) = resolve a ++ comps.
Proof.
  intros Hplain. rewrite resolve_as_dir. destruct comps as [| c comps].
  - simpl. by rewrite app_nil_r.
  - rewrite split_sep_join by done. by apply fold_push_plain.
Qed.

Lemma string_of_uint_no_dot (u : Decimal.uint) :
  contains extsep (NilEmpty.string_of_uint u) = false.
Proof. induction u; simpl; done. Qed.

Lemma str_no_dot (n : nat) : contains extsep (str n) = false.
Proof.
  unfold str, NilZero.string_of_uint.
  destruct (Nat.to_uint n) eqn:Hu; try (rewrite <- Hu; apply string_of_uint_no_dot).
  reflexivity.
Qed.

Lemma plain_intro (c : string) :
  is_empty c = false -> contains sep c = false -> contains extsep c = false ->
  plain c = true.
Proof.
  intros Hne Hsep Hdot. unfold plain. rewrite Hne, Hsep. simpl.
  destruct (String.eqb_spec c ".") as [-> | _]; [discriminate |].
  destruct (String.eqb_spec c "..") as [-> | _]; [discriminate |]. done.
Qed.

Lemma str_plain (n : nat) : plain (str n) = true.
Proof. apply plain_intro; auto using str_not_empty, str_no_sep, str_no_dot. Qed.

Lemma fmt_02d_plain (n : nat) : plain (fmt_02d n) = true.
Proof.
  apply plain_intro; auto using fmt_02d_not_empty, fmt_02d_no_sep.
  unfold fmt_02d. destruct (_ <? 2); [| apply str_no_dot].
  simpl. apply str_no_dot.
Qed.

Lemma dest_comps_plain (meth : string) (d : datetime) :
  forallb plain (dest_comps meth d) = true.
Proof.
  unfold dest_comps.
  destruct (String.eqb meth METHOD_YEAR_MONTH);
    [| destruct (String.eqb meth METHOD_YEAR_MONTH_DAY)];
    simpl; rewrite ?str_plain, ?fmt_02d_plain; done.
Qed.

Lemma dest_comps_not_nil (meth : string) (d : datetime) : dest_comps meth d <> [].
Proof.
  unfold dest_comps.
  destruct (String.eqb meth METHOD_YEAR_MONTH);
    [| destruct (String.eqb meth METHOD_YEAR_MONTH_DAY)]; done.
Qed.

(** The destination path, component by component. *)
Lemma generate_dest_path_comps (self : OrganizerThread) (d : datetime) (f : string) :
  startswith sep f = false ->
  generate_dest_path self d f
  = as_dir (dest_folder self) +:+ sep_join (dest_comps (method self) d ++ [f]).
Proof.
  intros Hf. rewrite generate_dest_path_closed by done. f_equal.
  unfold date_dirs, dest_comps.
  destruct (String.eqb (method self) METHOD_YEAR_MONTH);
    [| destruct (String.eqb (method self) METHOD_YEAR_MONTH_DAY)];
    simpl; repeat (rewrite append_assoc; simpl); done.
Qed.

Lemma resolve_dest_path (self : OrganizerThread) (d : datetime) (f : string) :
  plain f = true ->
  resolve (generate_dest_path self d f)
  = resolve (dest_folder self) ++ dest_comps (method self) d ++ [f].
Proof.
  intros Hf.
  rewrite generate_dest_path_comps by by apply contains_startswith, plain_no_sep.
  rewrite resolve_sep_join; [done |].
  rewrite forallb_app, dest_comps_plain. simpl. by rewrite Hf.
Qed.

Lemma resolve_dest_dir (self : OrganizerThread) (d : datetime) (f : string) :
  plain f = true ->
  resolve (dirname (generate_dest_path self d f))
  = resolve (dest_folder self) ++ dest_comps (method self) d.
Proof.
  intros Hf.
  rewrite generate_dest_path_comps by by apply contains_startswith, plain_no_sep.
  pose proof (dest_comps_not_nil (method self) d) as Hne.
  pose proof (dest_comps_plain (method self) d) as Hplain.
  destruct (dest_comps (method self) d) as [| c comps]; [done |].
  rewrite sep_join_snoc, <- append_assoc.
  rewrite resolve_dirname by by apply plain_no_sep.
  by apply resolve_sep_join.
Qed.

(** A file name joined to a directory. *)
Lemma resolve_join_plain (a f : string) :
  plain f = true -> resolve (join a [f]) = resolve a ++ [f].
Proof.
  intros Hf. rewrite join_one by by apply contains_startswith, plain_no_sep.
  by apply resolve_as_dir_plain.
Qed.

Lemma basename_join_plain (a f : string) :
  plain f = true -> basename (join a [f]) = f.
Proof.
  intros Hf. pose proof (plain_no_sep f Hf) as Hsep.
  rewrite join_one by by apply contains_startswith.
  unfold basename, as_dir. destruct (is_empty a) eqn:Hempty.
  { apply is_empty_spec in Hempty as ->. simpl. by rewrite rcut_absent. }
  simpl. destruct (endswith sep a) eqn:Hends.
  - apply endswith_inv in Hends as [a' ->].
    rewrite append_assoc. simpl. by rewrite rcut_last.
  - rewrite append_assoc. simpl. by rewrite rcut_last.
Qed.

End ResolveFacts.

(** ** Copying twice *)

Section KindFacts.
Import PyStr posixpath FS Kind.

Lemma kle_refl (m : fs) : kle m m.
Proof. intros p. by right. Qed.

Lemma kle_trans (m1 m2 m3 : fs) : kle m1 m2 -> kle m2 m3 -> kle m1 m3.
Proof.
  intros H12 H23 p. destruct (H12 p) as [Hn | He]; [by left |].
  rewrite He. destruct (H23 p) as [Hn | He']; [| by right].
  left. congruence.
Qed.


Lemma kind_file (o : option node) : kind o = Some false <-> exists d, o = Some (File d).
Proof.
  destruct o as [[d |] |]; simpl; split; try congruence; eauto.
  all: intros [? ?]; congruence.
Qed.

Lemma is_dir_at_spec (m : fs) (p : list string) :
  is_dir_at m p = true <-> p = [] \/ kind (m !! p) = Some true.
Proof.
  unfold is_dir_at, lookup_node. destruct p as [| c p].
  - split; [by left | done].
  - destruct (m !! (c :: p)) as [[? |] |]; simpl; intuition congruence.
Qed.

Lemma is_file_at_spec (m : fs) (p : list string) :
  is_file_at m p = true <-> p <> [] /\ kind (m !! p) = Some false.
Proof.
  unfold is_file_at, lookup_node. destruct p as [| c p].
  - split; [done | by intros [? _]].
  - destruct (m !! (c :: p)) as [[? |] |]; simpl; intuition congruence.
Qed.





(** *** Creating directories *)

Lemma prefixes_not_nil (p q : list string) : q ∈ prefixes p -> q <> [].
Proof.
  destruct p as [| c p]; simpl; [by intros ?%elem_of_nil |].
  intros [-> | Hin]%elem_of_cons; [done |].
  apply list_elem_of_fmap in Hin as (q' & -> & _). done.
Qed.


Lemma mkdirs_at_lookup (p q : list string) (m : fs) :
  mkdirs_at p m !! q = if decide (q ∈ prefixes p) then Some Dir else m !! q.
Proof.
  unfold mkdirs_at. induction (prefixes p) as [| x l IH]; simpl.
  - destruct (decide (q ∈ [])) as [Hin | _]; [by apply elem_of_nil in Hin | done].
  - destruct (decide (x = q)) as [-> | Hne].
    + rewrite lookup_insert_eq. destruct (decide (q ∈ q :: l)) as [_ | Hn]; [done |].
      destruct Hn. by left.
    + rewrite lookup_insert_ne by done. rewrite IH.
      destruct (decide (q ∈ l)) as [Hin | Hn].
      * destruct (decide (q ∈ x :: l)) as [_ | Hn']; [done |]. destruct Hn'. by right.
      * destruct (decide (q ∈ x :: l)) as [Hin' | _]; [| done].
        apply elem_of_cons in Hin' as [-> | ?]; done.
Qed.

Lemma no_file_prefix (m : fs) (p q : list string) :
  existsb (is_file_at m) (prefixes p) = false -> q ∈ prefixes p ->
  kind (m !! q) <> Some false.
Proof.
  intros Hnone Hin Hfile.
  assert (existsb (is_file_at m) (prefixes p) = true) as Hsome; [| congruence].
  apply existsb_exists. exists q. split; [by apply list_elem_of_In |].
  apply is_file_at_spec. split; [by eapply prefixes_not_nil | done].
Qed.

Lemma makedirs_kle (name : string) (m m' : fs) r :
  makedirs name m = (m', r) -> kle m m'.
Proof.
  unfold makedirs. destruct (is_empty name); [intros [= <- _]; apply kle_refl |].
  destruct (existsb _ _) eqn:Hfile; intros [= <- _]; [apply kle_refl |].
  intros q. rewrite mkdirs_at_lookup. destruct (decide (q ∈ prefixes _)) as [Hin | _];
    [| by right].
  pose proof (no_file_prefix _ _ _ Hfile Hin).
  destruct (m !! q) as [[? |] |]; simpl in *; auto. congruence.
Qed.

Lemma makedirs_file_at (name : string) (m m' : fs) r (p : list string) :
  makedirs name m = (m', r) -> file_at m' p = file_at m p.
Proof.
  unfold makedirs. destruct (is_empty name); [by intros [= <- _] |].
  destruct (existsb _ _) eqn:Hfile; intros [= <- _]; [done |].
  unfold file_at. rewrite mkdirs_at_lookup.
  destruct (decide (p ∈ prefixes _)) as [Hin | _]; [| done].
  pose proof (no_file_prefix _ _ _ Hfile Hin).
  destruct (m !! p) as [[? |] |]; simpl in *; congruence.
Qed.

(** *** Copying one file *)

Lemma copy2_cases (src dst : string) (m : fs) :
  let k := copy_target m src dst in
  (exists e, copy2 src dst m = (m, Some e)) \/
  (exists d, lookup_node m (resolve src) = Some (File d) /\
     resolve src <> k /\ is_dir_at m k = false /\
     is_dir_at m (removelast k) = true /\
     copy2 src dst m = (<[k := File d]> m, None)).
Proof.
  intros k. unfold copy2. fold (copy_target m src dst). fold k.
  destruct (lookup_node m (resolve src)) as [[d |] |]; try (left; by eexists).
  destruct (decide (resolve src = k)) as [Heq | Hne]; [left; by eexists |].
  destruct (is_dir_at m k) eqn:Hdir; [left; by eexists |].
  destruct (is_dir_at m (removelast k)) eqn:Hparent; [| left; by eexists].
  right. by exists d.
Qed.

Lemma insert_file_kle (m : fs) (k : list string) (d : fdata) :
  is_dir_at m k = false -> kle m (<[k := File d]> m).
Proof.
  intros Hdir q. destruct (decide (k = q)) as [<- | Hne].
  - rewrite lookup_insert_eq. simpl.
    destruct (kind (m !! k)) as [[] |] eqn:Hk; auto.
    assert (is_dir_at m k = true) by (apply is_dir_at_spec; by right). congruence.
  - rewrite lookup_insert_ne by done. by right.
Qed.

Lemma copy2_kle (src dst : string) (m m' : fs) r :
  copy2 src dst m = (m', r) -> kle m m'.
Proof.
  destruct (copy2_cases src dst m) as [[e ->] | (d & _ & _ & Hdir & _ & ->)];
    intros [= <- _]; [apply kle_refl | by apply insert_file_kle].
Qed.

End KindFacts.

Section Again.
Import PyStr posixpath FS Kind.

Variables (dest : list string) (final : fs).







(** What [shutil.copy2] changes lies in the destination folder. *)
Lemma copy2_outside (src dst : string) (s s1 : fs) r (p : list string) :
  copy2 src dst s = (s1, r) ->
  dest `prefix_of` resolve dst ->
  resolve (join dst [basename src]) = resolve dst ++ [basename src] ->
  ~ dest `prefix_of` p -> file_at s1 p = file_at s p.
Proof.
  intros Hcp Hunder Hjoin Hout.
  destruct (copy2_cases src dst s) as [[e He] | (d & _ & _ & _ & _ & He)];
    rewrite He in Hcp; injection Hcp as <- <-; [done |].
  unfold file_at. rewrite lookup_insert_ne; [done |].
  intros <-. apply Hout. unfold copy_target.
  destruct (isdir s dst); [| done]. rewrite Hjoin. by apply prefix_app_r.
Qed.

End Again.

Section CopyTwice.
Import PyStr posixpath FS Kind.

Variable ctrl : nat -> bool.

Lemma same_request_self_at (s : state fs) : same_request (self_at ctrl s) (self_ s).
Proof. unfold self_at. by destruct (ctrl (checks s)). Qed.



Lemma makedirs_raise (name : string) (m m1 : fs) e :
  makedirs name m = (m1, Some e) -> m1 = m.
Proof.
  unfold makedirs. destruct (is_empty name); [by intros [= <-] |].
  destruct (existsb _ _); [by intros [= <-] | done].
Qed.

(** The facts about the paths of one visit that the file-system arguments
    need. *)
Lemma visit_paths (self : OrganizerThread) (date : datetime) (root f : string) :
  plain f = true ->
  let d := generate_dest_path self date f in
  let p := join root [f] in
  resolve (dest_folder self) `prefix_of` resolve d /\
  resolve (join d [basename p]) = resolve d ++ [basename p] /\
  removelast (resolve d) = resolve (dirname d).
Proof.
  intros Hf d p. subst d p. rewrite basename_join_plain by done.
  rewrite resolve_join_plain by done.
  rewrite resolve_dest_path, resolve_dest_dir by done.
  split; [by apply prefix_app_r |]. split; [done |].
  rewrite app_assoc. apply removelast_last.
Qed.

(** One visit of the first run: entries are only added, and nothing changes
    outside the destination folder. *)
Lemma visit_first (root f : string) (s s1 : state fs) r tr :
  copy_files (self_ s) = true -> plain f = true ->
  process_file ctrl root f s = (r, s1, tr) ->
  kle (world s) (world s1) /\
  (forall p, ~ resolve (dest_folder (self_ s)) `prefix_of` p ->
     file_at (world s1) p = file_at (world s) p) /\
  same_request (self_ s1) (self_ s).
Proof.
  intros Hcopy Hf. rewrite process_file_cases. cbv zeta.
  destruct (same_request_self_at s) as (Hdest & Hmeth & Hcp).
  destruct (stop_flag (self_at ctrl s)).
  { intros [= <- <- <-]. simpl. split; [apply kle_refl |]. split; [done |].
    apply same_request_self_at. }
  destruct (_ || _).
  { intros [= <- <- <-]. simpl. split; [apply kle_refl |]. split; [done |].
    apply same_request_self_at. }
  destruct (visit_paths (self_at ctrl s)
              (get_photo_date (world s) (join root [f])) root f Hf)
    as (Hunder & Hjoin & Hparent).
  rewrite Hdest in Hunder.
  simpl os_makedirs. simpl shutil_copy2.
  destruct (makedirs _ (world s)) as [w1 [e |]] eqn:Hmk.
  { intros [= <- <- <-]. simpl. apply makedirs_raise in Hmk as ->.
    split; [apply kle_refl |]. split; [done |]. apply same_request_self_at. }
  rewrite Hcp, Hcopy.
  destruct (copy2 _ _ w1) as [w2 r2] eqn:Hc2.
  assert (kle (world s) w2 /\
          (forall p, ~ resolve (dest_folder (self_ s)) `prefix_of` p ->
             file_at w2 p = file_at (world s) p)) as [Hle Hout].
  { split.
    - eapply kle_trans; [by eapply makedirs_kle | by eapply copy2_kle].
    - intros p Hp. rewrite (copy2_outside _ _ _ _ _ _ p Hc2 Hunder Hjoin Hp).
      by eapply makedirs_file_at. }
  destruct r2 as [e |]; intros [= <- <- <-]; simpl;
    (split; [done |]); (split; [done |]); apply same_request_self_at.
Qed.


End CopyTwice.

Section Loops.

Context {W : Type} `{OS W}.

Lemma for_each_app {A} (l1 l2 : list A) (body : A -> M unit) (s : state W) :
  for_each (l1 ++ l2) body s =
    match for_each l1 body s with
    | (Val _, s1, t1) =>
        match for_each l2 body s1 with
        | (r, s2, t2) => (r, s2, t1 ++ t2)
        end
    | (Returned, s1, t1) => (Returned, s1, t1)
    | (Raised e, s1, t1) => (Raised e, s1, t1)
    end.
Proof.
  revert s. induction l1 as [| x l1 IH]; intros s.
  - simpl app. rewrite for_each_nil. by destruct (for_each l2 body s) as [[r s2] t2].
  - simpl app. rewrite !for_each_cons.
    destruct (body x s) as [[[[] | | e] s1] t1]; try done.
    rewrite IH. destruct (for_each l1 body s1) as [[[[] | | e] s2] t2]; try done.
    destruct (for_each l2 body s2) as [[r s3] t3]. by rewrite app_assoc.
Qed.

Lemma for_each_map {A B} (g : A -> B) (l : list A) (body : B -> M unit) (s : state W) :
  for_each (map g l) body s = for_each l (fun x => body (g x)) s.
Proof.
  revert s. induction l as [| x l IH]; intros s; [done |].
  simpl map. rewrite !for_each_cons.
  destruct (body (g x) s) as [[[[] | | e] s1] t1]; try done. by rewrite IH.
Qed.

(** The two loops of [run] are one loop over the candidates. *)
Lemma walk_flat (body : string -> string -> M unit) walk (s : state W) :
  for_each walk (fun '(root, files) => for_each files (body root)) s
  = for_each (candidates walk) (fun '(root, f) => body root f) s.
Proof.
  revert s. induction walk as [| [root files] walk IH]; intros s; [done |].
  unfold candidates. simpl flat_map. fold (candidates walk).
  rewrite for_each_cons, for_each_app, for_each_map.
  destruct (for_each files _ s) as [[[[] | | e] s1] t1]; try done.
  by rewrite IH.
Qed.

End Loops.

Section CopyTwiceRuns.
Import PyStr posixpath FS Kind.

Variable ctrl : nat -> bool.
Variable dest : string.



End CopyTwiceRuns.

Section CopyTwiceClaim.
Import PyStr posixpath FS Kind.



End CopyTwiceClaim.


(** ** The scenarios of the specification *)

(** A photograph taken on 3 May 2021 and a text file, by year and month, in
    copy mode: the text file is passed over in silence, the photograph is
    copied to [2021/05], with one success log and the completion message. *)
Example scenario_photograph_and_text_file :
  start Sample.by_month never Sample.photos_walk Sample.photos
  = (Val tt,
     mk_state Sample.by_month
       (<[["dest"; "2021"; "05"; "a.jpg"] := Sample.jpeg "2021:05:03 10:00:00"]>
          (<[["dest"; "2021"; "05"] := FS.Dir]>
             (<[["dest"; "2021"] := FS.Dir]> Sample.photos))) 2,
     [Preview "/src/a.jpg"; Makedirs "/dest/2021/05";
      Copy2 "/src/a.jpg" "/dest/2021/05/a.jpg";
      Log "✅ Copiada: a.jpg -> /dest/2021/05/a.jpg";
      Log "🎉 Organización completada."]).
Proof. vm_compute. reflexivity. Qed.

(** Two photographs with one name and one month: the second copy replaces
    the first, and each has its success log. *)
Example scenario_same_name_same_month :
  (start Sample.by_month never Sample.album_walk Sample.album).2
  = [Preview "/src/x/p.jpg"; Makedirs "/dest/2021/05";
     Copy2 "/src/x/p.jpg" "/dest/2021/05/p.jpg";
     Log "✅ Copiada: p.jpg -> /dest/2021/05/p.jpg";
     Preview "/src/y/p.jpg"; Makedirs "/dest/2021/05";
     Copy2 "/src/y/p.jpg" "/dest/2021/05/p.jpg";
     Log "✅ Copiada: p.jpg -> /dest/2021/05/p.jpg";
     Log "🎉 Organización completada."] /\
  world (start Sample.by_month never Sample.album_walk Sample.album).1.2
    !! ["dest"; "2021"; "05"; "p.jpg"]
  = Some (Sample.shot "second" "2021:05:20 18:00:00").
Proof. split; vm_compute; reflexivity. Qed.

(** ** Further properties of the worker and of the window *)

(** ** Extensions *)

Section ExtensionFacts.
Import PyStr posixpath.

#[local] Arguments String.append !s1 s2 : simpl nomatch.

Lemma image_video_apart (x : string) : mem x IMAGE_EXTS && mem x VIDEO_EXTS = false.
Proof.
  unfold mem, IMAGE_EXTS. cbn [existsb].
  repeat match goal with
  | |- context [String.eqb x ?e] =>
      destruct (String.eqb_spec x e) as [-> | _]; [reflexivity |]
  end.
  reflexivity.
Qed.

(** X1. No path is classified both as an image and as a video. *)
Theorem X1_image_and_video_exclude (file_path : string) :
  is_image file_path && is_video file_path = false.
Proof. unfold is_image, is_video. apply image_video_apart. Qed.

Lemma basename_join_nosep (a f : string) :
  contains sep f = false -> basename (join a [f]) = f.
Proof.
  intros Hsep. rewrite join_one by by apply contains_startswith.
  unfold basename, as_dir. destruct (is_empty a) eqn:Hempty.
  { apply is_empty_spec in Hempty as ->. simpl. by rewrite rcut_absent. }
  simpl. destruct (endswith sep a) eqn:Hends.
  - apply endswith_inv in Hends as [a' ->].
    rewrite append_assoc. simpl. by rewrite rcut_last.
  - rewrite append_assoc. simpl. by rewrite rcut_last.
Qed.


Lemma lower_append (a b : string) : lower (a +:+ b) = lower a +:+ lower b.
Proof. induction a as [| x a IH]; simpl; [done | by rewrite IH]. Qed.





Lemma all_char_ends (c : ascii) (s : string) :
  all_char c s = true -> s <> "" -> exists s', s = s' +:+ String c "".
Proof.
  intros Hall Hne. apply endswith_inv.
  induction s as [| a s IH]; [done |]. simpl in *.
  apply andb_true_iff in Hall as [Ha Hs]. destruct s; [done |]. by apply IH.
Qed.

(** X3. A file name that is some dots followed by a part without dot (a
    name without extension such as [README], or a dot file such as [.jpg])
    has no extension: it is neither an image nor a video. *)
Theorem X3_no_extension_not_classified (root dots rest : string) :
  all_char extsep dots = true -> contains extsep rest = false ->
  contains sep rest = false ->
  let file_path := join root [dots +:+ rest] in
  splitext_ext file_path = "" /\
  is_image file_path = false /\ is_video file_path = false.
Proof.
  intros Hdots Hrest Hsep file_path. subst file_path.
  assert (contains sep dots = false) as Hdsep.
  { clear -Hdots. induction dots as [| a s IH]; [done |]. simpl in *.
    apply andb_true_iff in Hdots as [Ha Hs]. rewrite (IH Hs), orb_false_r.
    apply Ascii.eqb_eq in Ha as ->. reflexivity. }
  assert (splitext_ext (join root [dots +:+ rest]) = "") as Hext.
  { unfold splitext_ext.
    rewrite basename_join_nosep by (by rewrite contains_append, Hdsep).
    destruct (decide (dots = "")) as [-> | Hne].
    - simpl. by rewrite rcut_absent.
    - destruct (all_char_ends _ _ Hdots Hne) as [d' Hd']. rewrite Hd' at 1.
      rewrite append_assoc. simpl. rewrite rcut_last by done.
      rewrite <- Hd'. destruct dots; [done |]. by rewrite Hdots. }
  unfold is_image, is_video. rewrite Hext. by repeat split.
Qed.

Lemma X3_witness :
  is_image (join "/src" [".jpg"]) = false /\ is_video (join "/src" [".jpg"]) = false.
Proof.
  exact (proj2 (X3_no_extension_not_classified "/src" "." "jpg"
                  eq_refl eq_refl eq_refl)).
Defined.

End ExtensionFacts.

(** ** The shape of a trace *)

Section TraceFacts.

Context {W : Type} `{OS W}.

(** What holds of the empty trace, of every visit, and of two traces put one
    after the other holds of a loop. *)
Lemma for_each_compose {A} (body : A -> M unit)
    (P : result unit -> list event -> Prop) :
  P (Val tt) [] ->
  (forall t1 r t2, P (Val tt) t1 -> P r t2 -> P r (t1 ++ t2)) ->
  (forall x (s : state W) r s' t, body x s = (r, s', t) -> P r t) ->
  forall l (s : state W) r s' t, for_each l body s = (r, s', t) -> P r t.
Proof.
  intros Hnil Happ Hbody. induction l as [| x l IH]; intros s r s' t.
  - rewrite for_each_nil. by intros [= <- <- <-].
  - rewrite for_each_cons. destruct (body x s) as [[r1 s1] t1] eqn:Hx.
    apply Hbody in Hx. destruct r1 as [[] | | e]; try (by intros [= <- <- <-]).
    destruct (for_each l body s1) as [[r2 s2] t2] eqn:Hl.
    intros [= <- <- <-]. apply Happ; [done | by eapply IH].
Qed.

Lemma walk_compose (ctrl : nat -> bool) (P : result unit -> list event -> Prop) :
  P (Val tt) [] ->
  (forall t1 r t2, P (Val tt) t1 -> P r t2 -> P r (t1 ++ t2)) ->
  (forall root filename (s : state W) r s' t,
     process_file ctrl root filename s = (r, s', t) -> P r t) ->
  forall walk (s : state W) r s' t,
    for_each walk (fun '(root, files) =>
        for_each files (fun filename => process_file ctrl root filename)) s
    = (r, s', t) -> P r t.
Proof.
  intros Hnil Happ Hvisit. apply for_each_compose; [done | done |].
  intros [root files]. apply for_each_compose; [done | done |].
  intros filename. apply Hvisit.
Qed.

Lemma count_ev_app (f : event -> bool) (t1 t2 : list event) :
  count_ev f (t1 ++ t2) = count_ev f t1 + count_ev f t2.
Proof. unfold count_ev. by rewrite List.filter_app, length_app. Qed.

Lemma balanced_app (t1 : list event) r (t2 : list event) :
  balanced (Val tt) t1 -> balanced r t2 -> balanced r (t1 ++ t2).
Proof.
  unfold balanced. rewrite !count_ev_app. intros (H1 & H2 & H3) [H4 H5].
  split; [lia |]. destruct r as [[] | | e]; lia.
Qed.

Lemma process_file_balanced (ctrl : nat -> bool) root filename (s : state W) r s' t :
  process_file ctrl root filename s = (r, s', t) -> balanced r t.
Proof.
  rewrite process_file_cases. cbv zeta.
  destruct (stop_flag _); [by intros [= <- <- <-] |].
  destruct (_ || _); [by intros [= <- <- <-] |].
  destruct (os_makedirs _ _) as [w1 [e |]]; [by intros [= <- <- <-] |].
  destruct (copy_files _).
  - by destruct (shutil_copy2 _ _ _) as [w2 [e |]]; intros [= <- <- <-].
  - by destruct (shutil_move _ _ _) as [w2 [e |]]; intros [= <- <- <-].
Qed.

Lemma run_balanced (ctrl : nat -> bool) walk (s s' : state W) r t :
  run ctrl walk s = (r, s', t) ->
  count_ev is_preview t = count_ev is_attempt t /\
  count_ev is_any_log t
    = count_ev is_relocation t + match r with Raised _ => 0 | _ => 1 end /\
  count_ev is_attempt t
    = count_ev is_relocation t + match r with Raised _ => 1 | _ => 0 end.
Proof.
  destruct (decide (source_folder (self_ s) = "" \/ dest_folder (self_ s) = ""))
    as [Hbad | Hok].
  { rewrite run_invalid by done. by intros [= <- <- <-]. }
  rewrite run_valid by (intros ?; apply Hok; auto).
  destruct (for_each walk _ s) as [[r1 s1] t1] eqn:Hloop.
  apply (walk_compose ctrl balanced) in Hloop;
    [| by repeat split | apply balanced_app | apply process_file_balanced].
  destruct Hloop as [H1 H2]. destruct r1 as [[] | | e]; intros [= <- <- <-];
    rewrite ?count_ev_app; cbn; lia.
Qed.

Lemma msg_copied_not_stopped filename d : Log (msg_copied filename d) <> Log MSG_STOPPED.
Proof. unfold msg_copied, MSG_STOPPED. simpl. discriminate. Qed.

Lemma msg_moved_not_stopped filename d : Log (msg_moved filename d) <> Log MSG_STOPPED.
Proof. unfold msg_moved, MSG_STOPPED. simpl. discriminate. Qed.

Lemma msg_error_not_stopped filename e : Log (msg_error filename e) <> Log MSG_STOPPED.
Proof. unfold msg_error, MSG_STOPPED. simpl. discriminate. Qed.

Lemma stops_last_app (t1 : list event) r (t2 : list event) :
  stops_last (Val tt) t1 -> stops_last r t2 -> stops_last r (t1 ++ t2).
Proof.
  unfold stops_last. intros H1 H2. destruct r as [[] | | e];
    try (by apply Forall_app).
  destruct H2 as (t0 & -> & H0). exists (t1 ++ t0).
  split; [by rewrite app_assoc | by apply Forall_app].
Qed.

Lemma process_file_stops_last (ctrl : nat -> bool) root filename (s : state W) r s' t :
  process_file ctrl root filename s = (r, s', t) -> stops_last r t.
Proof.
  rewrite process_file_cases. cbv zeta.
  destruct (stop_flag _); [intros [= <- <- <-]; by exists [] |].
  destruct (_ || _); [intros [= <- <- <-]; constructor |].
  assert (forall ev, (forall m, ev <> Log m) -> per_file ev) as Hother
    by (intros ev Hev; split; apply Hev).
  destruct (os_makedirs _ _) as [w1 [e |]].
  { intros [= <- <- <-]. repeat constructor; discriminate. }
  destruct (copy_files _).
  - destruct (shutil_copy2 _ _ _) as [w2 [e |]]; intros [= <- <- <-];
      repeat constructor; try discriminate;
      auto using msg_copied_not_done, msg_error_not_done,
        msg_copied_not_stopped, msg_error_not_stopped.
  - destruct (shutil_move _ _ _) as [w2 [e |]]; intros [= <- <- <-];
      repeat constructor; try discriminate;
      auto using msg_moved_not_done, msg_error_not_done,
        msg_moved_not_stopped, msg_error_not_stopped.
Qed.

Lemma per_file_counts (t : list event) :
  Forall per_file t -> count_log MSG_DONE t = 0 /\ count_log MSG_STOPPED t = 0.
Proof.
  intros Hall. split; apply count_log_absent; eapply Forall_impl; try exact Hall;
    by intros ev [? ?].
Qed.

End TraceFacts.

Section IdleFacts.

Context {W : Type} `{OS W}.


End IdleFacts.



(** X5. With both paths given, a run emits the "stopped" message once if it
    ends by the [return] of line 36, as its last event, and never
    otherwise; it emits the completion message once if it reaches line 62
    and never otherwise. No run emits both. *)
Theorem X5_stopped_or_completed {W : Type} `{OS W}
    (self : OrganizerThread) (ctrl : nat -> bool)
    (walk : list (string * list string)) (w : W) :
  source_folder self <> "" -> dest_folder self <> "" ->
  let out := start self ctrl walk w in
  count_log MSG_STOPPED out.2 = match out.1.1 with Returned => 1 | _ => 0 end /\
  count_log MSG_DONE out.2 = match out.1.1 with Val _ => 1 | _ => 0 end /\
  (out.1.1 = Returned -> exists t0, out.2 = t0 ++ [Log MSG_STOPPED]).
Proof.
  intros Hs Hd out. subst out. unfold start. rewrite run_valid by done.
  destruct (for_each walk _ _) as [[r1 s1] t1] eqn:Hloop.
  apply (walk_compose ctrl stops_last) in Hloop;
    [| constructor | apply stops_last_app | apply process_file_stops_last].
  destruct r1 as [[] | | e]; simpl in *.
  - destruct (per_file_counts _ Hloop) as [Hdone Hstop].
    rewrite !count_log_app, Hdone, Hstop. by repeat split.
  - destruct Hloop as (t0 & -> & H0).
    destruct (per_file_counts _ H0) as [Hdone Hstop].
    rewrite !count_log_app, Hdone, Hstop. repeat split; by eauto.
  - destruct (per_file_counts _ Hloop) as [Hdone Hstop]. by repeat split.
Qed.

Lemma X5_witness :
  count_log MSG_STOPPED
    (start (stop Sample.by_month) never Sample.photos_walk Sample.photos).2 = 1.
Proof.
  refine (proj1 (X5_stopped_or_completed (stop Sample.by_month) never
                   Sample.photos_walk Sample.photos _ _)); discriminate.
Defined.

(** X6. Every run, whatever its parameters, emits one log for each call of
    [shutil.copy2] or [shutil.move] and one closing log (the warning, the
    "stopped" or the completion message); a run that an exception ends
    emits the logs of its calls only. *)
Theorem X6_one_log_per_relocation_and_one_closing {W : Type} `{OS W}
    (self : OrganizerThread) (ctrl : nat -> bool)
    (walk : list (string * list string)) (w : W) :
  let out := start self ctrl walk w in
  count_ev is_any_log out.2
  = count_ev is_relocation out.2 + match out.1.1 with Raised _ => 0 | _ => 1 end.
Proof.
  intros out. subst out. unfold start.
  destruct (run ctrl walk _) as [[r s] t] eqn:Hrun.
  by destruct (run_balanced _ _ _ _ _ _ Hrun) as (_ & ? & _).
Qed.


Section ModeFacts.

Context {W : Type} `{OS W}.

Lemma count_ev_none (f : event -> bool) (t : list event) :
  Forall (fun ev => f ev = false) t -> count_ev f t = 0.
Proof.
  unfold count_ev. induction 1 as [| ev t Hev _ IH]; [done |].
  simpl. by rewrite Hev.
Qed.

Lemma copy_files_self_at (ctrl : nat -> bool) (s : state W) :
  copy_files (self_at ctrl s) = copy_files (self_ s).
Proof. unfold self_at. by destruct (ctrl (checks s)). Qed.

(** A visit calls the one of [shutil.copy2] and [shutil.move] that the
    request asks for, and the request stays as it is. *)
Lemma process_file_mode (b : bool) (ctrl : nat -> bool) root filename
    (s : state W) r s' t :
  copy_files (self_ s) = b ->
  process_file ctrl root filename s = (r, s', t) ->
  Forall (fun ev => (if b then is_move_call ev else is_copy_call ev) = false) t /\
  copy_files (self_ s') = b /\ (r = Returned -> True).
Proof.
  intros Hb. rewrite process_file_cases. cbv zeta.
  pose proof (copy_files_self_at ctrl s) as Hat. rewrite Hb in Hat.
  destruct (stop_flag _).
  { intros [= <- <- <-]. split; [| done]. repeat constructor. by destruct b. }
  destruct (_ || _); [intros [= <- <- <-]; by repeat constructor |].
  destruct (os_makedirs _ _) as [w1 [e |]].
  { intros [= <- <- <-]. split; [| done]. repeat constructor; by destruct b. }
  rewrite Hat. destruct b.
  - destruct (shutil_copy2 _ _ _) as [w2 [e |]]; intros [= <- <- <-];
      (split; [| done]); by repeat constructor.
  - destruct (shutil_move _ _ _) as [w2 [e |]]; intros [= <- <- <-];
      (split; [| done]); by repeat constructor.
Qed.

Lemma run_mode (b : bool) (ctrl : nat -> bool) walk (s : state W) r s' t :
  copy_files (self_ s) = b ->
  run ctrl walk s = (r, s', t) ->
  count_ev (if b then is_move_call else is_copy_call) t = 0.
Proof.
  intros Hb.
  destruct (decide (source_folder (self_ s) = "" \/ dest_folder (self_ s) = ""))
    as [Hbad | Hok].
  { rewrite run_invalid by done. intros [= <- <- <-]. by destruct b. }
  rewrite run_valid by (intros ?; apply Hok; auto).
  destruct (for_each walk _ s) as [[r1 s1] t1] eqn:Hloop.
  assert (Forall (fun ev => (if b then is_move_call ev else is_copy_call ev) = false) t1)
    as Hall.
  { revert Hloop.
    generalize s r1 s1 t1 Hb.
    intros s0 r0 s0' t0 Hb0 Hloop.
    eapply (for_each_post _ _ (fun s => copy_files (self_ s) = b) (fun _ => True));
      [| exact Hb0 | exact Hloop].
    intros [root files] s2 r2 s2' t2.
    apply (for_each_post _ _ (fun s => copy_files (self_ s) = b) (fun _ => True)).
    intros filename s3 r3 s3' t3 Hb3 Hvisit.
    by apply (process_file_mode b ctrl root filename s3 r3 s3' t3). }
  assert (count_ev (if b then is_move_call else is_copy_call) t1 = 0) as Hzero.
  { apply count_ev_none. eapply Forall_impl; [exact Hall |]. intros ev. by destruct b. }
  destruct r1 as [[] | | e]; intros [= <- <- <-]; try done.
  rewrite count_ev_app, Hzero. by destruct b.
Qed.

(** One reading of the flag for each visit. *)
Lemma process_file_checks (ctrl : nat -> bool) root filename (s : state W) r s' t :
  process_file ctrl root filename s = (r, s', t) -> checks s' = S (checks s).
Proof.
  rewrite process_file_cases. cbv zeta.
  destruct (stop_flag _); [by intros [= <- <- <-] |].
  destruct (_ || _); [by intros [= <- <- <-] |].
  destruct (os_makedirs _ _) as [w1 [e |]]; [by intros [= <- <- <-] |].
  destruct (copy_files _).
  - by destruct (shutil_copy2 _ _ _) as [w2 [e |]]; intros [= <- <- <-].
  - by destruct (shutil_move _ _ _) as [w2 [e |]]; intros [= <- <- <-].
Qed.

Lemma candidates_length walk : length (candidates walk) = length (walk_files walk).
Proof.
  unfold candidates, walk_files. induction walk as [| [root files] walk IH]; [done |].
  simpl. by rewrite !length_app, length_map, IH.
Qed.

Lemma loop_checks (ctrl : nat -> bool) (cands : list (string * string)) :
  forall (s : state W) r s' t,
    for_each cands (fun '(root, f) => process_file ctrl root f) s = (r, s', t) ->
    checks s' <= checks s + length cands /\
    (r = Val tt -> checks s' = checks s + length cands).
Proof.
  induction cands as [| [root f] cands IH]; intros s r s' t.
  - rewrite for_each_nil. intros [= <- <- <-]. simpl. split; [lia | intros _; lia].
  - rewrite for_each_cons.
    destruct (process_file ctrl root f s) as [[r1 s1] t1] eqn:Hvisit.
    apply process_file_checks in Hvisit.
    destruct r1 as [[] | | e]; try (intros [= <- <- <-]; simpl; split; [lia | done]).
    destruct (for_each cands _ s1) as [[r2 s2] t2] eqn:Hrest.
    intros [= <- <- <-]. destruct (IH _ _ _ _ Hrest) as [Hle Heq]. simpl.
    split; [lia |]. intros Hval. specialize (Heq Hval). lia.
Qed.

End ModeFacts.

(** X8. A run in copy mode never calls [shutil.move], and a run in move mode
    never calls [shutil.copy2]: the mode is read for each file from the
    request, which the run does not change. *)
Theorem X8_one_mode_per_run {W : Type} `{OS W}
    (self : OrganizerThread) (ctrl : nat -> bool)
    (walk : list (string * list string)) (w : W) :
  let out := start self ctrl walk w in
  count_ev (if copy_files self then is_move_call else is_copy_call) out.2 = 0.
Proof.
  intros out. subst out. unfold start.
  destruct (run ctrl walk _) as [[r s] t] eqn:Hrun.
  by apply (run_mode (copy_files self)) in Hrun.
Qed.

(** X9. A run reads the flag once for each file name it visits, so at most
    as often as the walk yields file names, and exactly that often when it
    reaches the completion message. *)
Theorem X9_one_reading_of_the_flag_per_file {W : Type} `{OS W}
    (self : OrganizerThread) (ctrl : nat -> bool)
    (walk : list (string * list string)) (w : W) :
  let out := start self ctrl walk w in
  checks out.1.2 <= length (walk_files walk) /\
  (out.1.1 = Val tt -> checks out.1.2 = length (walk_files walk)).
Proof.
  intros out. subst out. unfold start.
  destruct (decide (source_folder self = "" \/ dest_folder self = "")) as [Hbad | Hok].
  { rewrite run_invalid by done. simpl. split; [lia | done]. }
  rewrite run_valid by (intros ?; apply Hok; auto). rewrite walk_flat.
  destruct (for_each (candidates walk) _ _) as [[r1 s1] t1] eqn:Hloop.
  apply loop_checks in Hloop as [Hle Heq]. rewrite candidates_length in *.
  simpl in *. destruct r1 as [[] | | e]; simpl; split; try done; try lia.
Qed.

Section NameFacts.
Import PyStr posixpath.

#[local] Arguments String.append !s1 s2 : simpl nomatch.

(** X10. A file name that starts with a separator replaces the whole path:
    the destination folder and the date directories are dropped, as
    [os.path.join] does with an absolute component. *)
Theorem X10_absolute_name_drops_destination (self : OrganizerThread) (d : datetime)
    (f : string) :
  startswith sep f = true -> generate_dest_path self d f = f.
Proof.
  intros Hf. unfold generate_dest_path, join.
  destruct (String.eqb _ _); [| destruct (String.eqb _ _)];
    cbn [fold_left]; unfold join_step at 1; by rewrite Hf.
Qed.

Lemma X10_witness :
  generate_dest_path Sample.by_month (mk_datetime 2021 5 3 10 0 0) "/etc/a.jpg"
  = "/etc/a.jpg".
Proof.
  exact (X10_absolute_name_drops_destination Sample.by_month
           (mk_datetime 2021 5 3 10 0 0) "/etc/a.jpg" eq_refl).
Defined.

Lemma to_uint_not_nil (n : nat) : Nat.to_uint n <> Decimal.Nil.
Proof.
  intros Hnil. pose proof (Unsigned.of_to n) as Hn. rewrite Hnil in Hn.
  simpl in Hn. subst n. discriminate.
Qed.

Lemma str_inj (n m : nat) : str n = str m -> n = m.
Proof.
  unfold str. intros Heq. apply Unsigned.to_uint_inj.
  pose proof (NilZero.usu _ (to_uint_not_nil n)) as Hn.
  pose proof (NilZero.usu _ (to_uint_not_nil m)) as Hm.
  rewrite Heq in Hn. congruence.
Qed.

Lemma fmt_02d_inj (n m : nat) : n < 100 -> m < 100 -> fmt_02d n = fmt_02d m -> n = m.
Proof.
  intros Hn Hm. rewrite !fmt_02d_two_dec by done. unfold two_dec.
  intros [= H1 H2].
  assert (forall a b, a < 10 -> b < 10 ->
            ascii_of_nat (48 + a) = ascii_of_nat (48 + b) -> a = b) as Hdigit.
  { intros a b Ha Hb Heq.
    apply (f_equal nat_of_ascii) in Heq.
    rewrite !nat_ascii_embedding in Heq by lia. lia. }
  assert (n / 10 < 10) by (apply Nat.Div0.div_lt_upper_bound; lia).
  assert (m / 10 < 10) by (apply Nat.Div0.div_lt_upper_bound; lia).
  pose proof (Nat.mod_upper_bound n 10). pose proof (Nat.mod_upper_bound m 10).
  assert (n / 10 = m / 10) as Hq by (apply Hdigit; [lia | lia | exact H1]).
  assert (n mod 10 = m mod 10) as Hr by (apply Hdigit; [lia | lia | exact H2]).
  rewrite (Nat.div_mod_eq n 10), (Nat.div_mod_eq m 10). congruence.
Qed.

Lemma dest_comps_bucket (meth : string) (d d' : datetime) :
  month d < 100 -> day d < 100 -> month d' < 100 -> day d' < 100 ->
  dest_comps meth d = dest_comps meth d' -> bucket meth d = bucket meth d'.
Proof.
  intros Hm Hd Hm' Hd'. unfold dest_comps, bucket.
  destruct (String.eqb meth METHOD_YEAR_MONTH).
  { intros [= Hy Hmo]. apply str_inj in Hy. apply fmt_02d_inj in Hmo; try done.
    congruence. }
  destruct (String.eqb meth METHOD_YEAR_MONTH_DAY); [| done].
  intros [= Hy Hmo Hda]. apply str_inj in Hy.
  apply fmt_02d_inj in Hmo; try done. apply fmt_02d_inj in Hda; try done.
  congruence.
Qed.

Lemma dest_comps_length (meth : string) (d d' : datetime) :
  length (dest_comps meth d) = length (dest_comps meth d').
Proof.
  unfold dest_comps. destruct (String.eqb _ _); [| destruct (String.eqb _ _)]; done.
Qed.

(** X11. Two files are sent to the same destination path exactly when they
    have the same name and their capture dates fall in the same bucket of
    the method: files of different names, months (or days) never meet. *)
Theorem X11_same_path_iff_same_name_and_bucket (self : OrganizerThread)
    (d d' : datetime) (f f' : string) :
  plain f = true -> plain f' = true ->
  month d < 100 -> day d < 100 -> month d' < 100 -> day d' < 100 ->
  generate_dest_path self d f = generate_dest_path self d' f'
  <-> f = f' /\ bucket (method self) d = bucket (method self) d'.
Proof.
  intros Hf Hf' Hm Hd Hm' Hd'. split.
  - intros Heq. apply (f_equal FS.resolve) in Heq.
    rewrite !resolve_dest_path in Heq by done.
    apply app_inv_head in Heq.
    apply app_inj_1 in Heq as [Hcomps Hname]; [| apply dest_comps_length].
    split; [congruence | by apply dest_comps_bucket].
  - intros [<- Hb]. unfold generate_dest_path. unfold bucket in Hb.
    destruct (String.eqb (method self) METHOD_YEAR_MONTH).
    { by injection Hb as -> ->. }
    destruct (String.eqb (method self) METHOD_YEAR_MONTH_DAY).
    { by injection Hb as -> -> ->. }
    reflexivity.
Qed.

Lemma X11_witness :
  generate_dest_path Sample.by_month (mk_datetime 2021 5 3 10 0 0) "p.jpg"
  = generate_dest_path Sample.by_month (mk_datetime 2021 5 20 18 0 0) "p.jpg"
  <-> "p.jpg" = "p.jpg" /\
      bucket (method Sample.by_month) (mk_datetime 2021 5 3 10 0 0)
      = bucket (method Sample.by_month) (mk_datetime 2021 5 20 18 0 0).
Proof.
  apply X11_same_path_iff_same_name_and_bucket; try reflexivity; simpl; lia.
Defined.

End NameFacts.

Section DateFacts.
Import Strptime.

#[local] Arguments String.append !s1 s2 : simpl nomatch.


(** What follows a date and time is not converted. *)
Lemma strptime_exif_trailing (d : datetime) (x : string) :
  valid_datetime d = true -> x <> "" -> strptime_exif (exif_text d +:+ x) = None.
Proof.
  intros Hvalid Hx.
  destruct (valid_datetime_bounds d Hvalid) as (Hy & Hm & Hd & Hh & Hmi & Hs).
  assert (heads format_regex (exif_text d +:+ x) d x) as [junk Hmatch].
  { unfold format_regex, exif_text. rewrite !append_assoc.
    eapply heads_bind; [by apply heads_dir_Y |].
    eapply heads_bind; [apply heads_lit |].
    eapply heads_bind; [by apply heads_dir_m |].
    eapply heads_bind; [apply heads_lit |].
    eapply heads_bind; [by apply heads_dir_d |].
    eapply heads_bind; [by apply heads_spaces1 |].
    eapply heads_bind; [by apply heads_dir_H |].
    eapply heads_bind; [apply heads_lit |].
    eapply heads_bind; [by apply heads_dir_M |].
    eapply heads_bind; [apply heads_lit |].
    eapply heads_bind; [by apply heads_dir_S |].
    destruct d. apply heads_ret. }
  unfold strptime_exif. rewrite Hmatch. by destruct x.
Qed.

End DateFacts.

(** X12. A DateTimeOriginal text that is a valid date and time followed by
    anything more (a fraction of a second, a time zone, a padding character)
    is not accepted by the format, and the capture date is the modification
    time. *)
Theorem X12_trailing_text_falls_back {W : Type} `{OS W} (w : W) (photo_path : string)
    (items : list (N * exif_value)) (d : datetime) (x : string) :
  Image_getexif w photo_path = Getexif (Some items) ->
  find_DateTimeOriginal items = Some (ExifStr (exif_text d +:+ x)) ->
  Strptime.valid_datetime d = true -> x <> "" ->
  get_photo_date w photo_path = getmtime_date w photo_path.
Proof.
  intros Hopen Hfind Hvalid Hx. unfold get_photo_date. rewrite Hopen.
  destruct items as [| item items]; [done |].
  by rewrite Hfind, strptime_exif_trailing.
Qed.

Lemma X12_witness :
  get_photo_date Scenes.precise "/src/a.jpg" = getmtime_date Scenes.precise "/src/a.jpg".
Proof.
  apply (X12_trailing_text_falls_back Scenes.precise "/src/a.jpg"
           [(271%N, ExifStr "Camera"); (36867%N, ExifStr "2021:05:03 10:00:00.25")]
           (mk_datetime 2021 5 3 10 0 0) ".25").
  - vm_compute. reflexivity.
  - reflexivity.
  - reflexivity.
  - discriminate.
Defined.



Section VisitEffects.
Import PyStr posixpath FS Kind.

Variable ctrl : nat -> bool.









(** *** No file is made up *)








(** *** Copy mode only adds *)

Lemma loop_keeps (cands : list (string * string)) :
  Forall (fun c => plain c.2 = true) cands ->
  forall (s s1 : state fs) r tr,
    copy_files (self_ s) = true ->
    for_each cands (visit ctrl) s = (r, s1, tr) ->
    kle (world s) (world s1) /\
    (forall p, ~ resolve (dest_folder (self_ s)) `prefix_of` p ->
       file_at (world s1) p = file_at (world s) p).
Proof.
  induction 1 as [| [root f] cands Hf _ IH]; intros s s1 r tr Hcopy.
  - rewrite for_each_nil. intros [= <- <- <-]. split; [apply kle_refl | done].
  - rewrite for_each_cons.
    change (visit ctrl (root, f) s) with (process_file ctrl root f s).
    destruct (process_file ctrl root f s) as [[r0 s0] t0] eqn:Hvisit.
    destruct (visit_first ctrl root f s s0 r0 t0 Hcopy Hf Hvisit)
      as (Hle & Houtside & Hd & _ & Hc).
    destruct r0 as [[] | | e]; try (by intros [= <- <- <-]).
    destruct (for_each cands (visit ctrl) s0) as [[r2 s2] t2] eqn:Hrest.
    intros [= <- <- <-].
    destruct (IH s0 s2 r2 t2) as [Hle2 Hout2]; [congruence | done |].
    rewrite Hd in Hout2.
    split; [by eapply kle_trans |].
    intros p Hp. by rewrite Hout2, Houtside.
Qed.

Lemma plain_candidates walk :
  forallb plain (walk_files walk) = true ->
  Forall (fun c : string * string => plain c.2 = true) (candidates walk).
Proof.
  unfold walk_files, candidates. intros Hall. apply Forall_forall.
  intros [root f] Hin. simpl.
  apply list_elem_of_In, in_flat_map in Hin as ([root' files] & Hw & Hin).
  apply in_map_iff in Hin as (f' & [= <- <-] & Hf').
  rewrite forallb_forall in Hall. apply Hall. apply in_flat_map.
  by exists (root', files).
Qed.

End VisitEffects.

Section RunEffects.
Import PyStr posixpath FS Kind.

Lemma run_world (ctrl : nat -> bool) (walk : list (string * list string))
    (s : state fs) (P : fs -> Prop) :
  (forall r s1 tr,
     for_each (candidates walk) (visit ctrl) s = (r, s1, tr) -> P (world s1)) ->
  P (world s) ->
  P (world (run ctrl walk s).1.2).
Proof.
  intros Hloop Hinit.
  destruct (decide (source_folder (self_ s) = "" \/ dest_folder (self_ s) = ""))
    as [Hbad | Hok].
  { by rewrite run_invalid. }
  rewrite run_valid by (intros ?; apply Hok; auto). rewrite walk_flat.
  change (fun '(root, f) => process_file ctrl root f) with (visit ctrl).
  destruct (for_each (candidates walk) (visit ctrl) s) as [[r1 s1] t1] eqn:Hrun.
  specialize (Hloop _ _ _ eq_refl). by destruct r1 as [[] | | e].
Qed.

End RunEffects.

(** X14. In copy mode a run removes nothing: every directory and every
    regular file that was there is still there as a directory or as a
    regular file, and every regular file outside the destination folder has
    the bytes and the metadata that it had. *)
Theorem X14_copy_mode_keeps_the_source (self : OrganizerThread) (ctrl : nat -> bool)
    (walk : list (string * list string)) (w : FS.fs) :
  copy_files self = true ->
  forallb plain (walk_files walk) = true ->
  let out := start self ctrl walk w in
  Kind.kle w (world out.1.2) /\
  forall p, ~ FS.resolve (dest_folder self) `prefix_of` p ->
    Kind.file_at (world out.1.2) p = Kind.file_at w p.
Proof.
  intros Hcopy Hplain out. subst out. unfold start.
  apply (run_world ctrl walk (mk_state self w 0)
           (fun m => Kind.kle w m /\
              forall p, ~ FS.resolve (dest_folder self) `prefix_of` p ->
                Kind.file_at m p = Kind.file_at w p)).
  - intros r s1 tr Hloop.
    by apply (loop_keeps ctrl _ (plain_candidates walk Hplain)
                (mk_state self w 0) s1 r tr Hcopy).
  - split; [apply kle_refl | done].
Qed.

Lemma X14_witness :
  Kind.kle Sample.album
    (world (start Sample.by_month never Sample.album_walk Sample.album).1.2).
Proof.
  exact (proj1 (X14_copy_mode_keeps_the_source Sample.by_month never
                  Sample.album_walk Sample.album eq_refl eq_refl)).
Defined.


Section VisitTheorems.
Import PyStr posixpath FS Kind.



End VisitTheorems.



Section GuiFacts.
Import Gui.

Lemma session_snoc (l : list action) (a : action) :
  session (l ++ [a]) = step (session l) a.
Proof. unfold session. by rewrite fold_left_app. Qed.

Lemma session_app (l1 l2 : list action) :
  session (l1 ++ l2) = fold_left step l2 (session l1).
Proof. unfold session. by rewrite fold_left_app. Qed.

(** What every action keeps. *)
Lemma step_buttons (app : PhotoOrganizerApp) (a : action) :
  stop_button app = negb (start_button app) ->
  (start_button app = true <-> organizing_thread app = None) ->
  nth_error METHODS (organize_method app) = Some (currentText app) ->
  stop_button (step app a) = negb (start_button (step app a)) /\
  (start_button (step app a) = true <-> organizing_thread (step app a) = None) /\
  nth_error METHODS (organize_method (step app a)) = Some (currentText (step app a)).
Proof.
  intros Hstop Hthread Hmethod.
  destruct a as [folder | folder | index | checked | | | ev]; cbn [step].
  - unfold select_source_folder. by destruct (PyStr.is_empty folder).
  - unfold select_dest_folder. by destruct (PyStr.is_empty folder).
  - destruct (index <? length METHODS) eqn:Hlt; [| done]. simpl.
    split; [done |]. split; [done |]. unfold currentText. simpl.
    apply Nat.ltb_lt in Hlt. simpl in Hlt.
    do 3 (destruct index as [| index]; [reflexivity |]). lia.
  - done.
  - destruct (start_button app) eqn:Hstart; [| by rewrite Hstart]. simpl.
    split; [done |]. split; [split; discriminate |]. exact Hmethod.
  - destruct (stop_button app) eqn:Hsb; [| by rewrite Hsb]. unfold stop_organization.
    destruct (organizing_thread app) as [thread |] eqn:Hth; [| by rewrite Hsb, Hth].
    simpl. split; [by rewrite Hsb |]. split; [| exact Hmethod].
    rewrite Hthread. split; discriminate.
  - destruct ev; simpl; done.
Qed.

Lemma step_labels (app : PhotoOrganizerApp) (a : action) :
  source_label app = "Carpeta de origen: " +:+ shown (source_folder app) ->
  dest_label app = "Carpeta de destino: " +:+ shown (dest_folder app) ->
  source_label (step app a) = "Carpeta de origen: " +:+ shown (source_folder (step app a)) /\
  dest_label (step app a) = "Carpeta de destino: " +:+ shown (dest_folder (step app a)).
Proof.
  intros Hs Hd.
  destruct a as [folder | folder | index | checked | | | ev]; cbn [step].
  - unfold select_source_folder, shown.
    destruct (PyStr.is_empty folder) eqn:Hf; [done |]. simpl. by rewrite Hf.
  - unfold select_dest_folder, shown.
    destruct (PyStr.is_empty folder) eqn:Hf; [done |]. simpl. by rewrite Hf.
  - by destruct (_ <? _).
  - done.
  - by destruct (start_button app).
  - destruct (stop_button app); [| done]. unfold stop_organization.
    by destruct (organizing_thread app).
  - by destruct ev.
Qed.

Lemma delivered_app (l1 l2 : list action) :
  delivered (l1 ++ l2) = delivered l1 ++ delivered l2.
Proof. unfold delivered. apply flat_map_app. Qed.

Lemma lines_app (t1 t2 : list event) : lines (t1 ++ t2) = lines t1 ++ lines t2.
Proof. unfold lines. apply flat_map_app. Qed.

(** While the start button is not enabled, the log box grows by the
    messages that arrive and by nothing else. *)
Lemma step_log_box (app : PhotoOrganizerApp) (a : action) :
  start_button app = false ->
  start_button (step app a) = false /\
  log_box (step app a) = log_box app ++ lines (delivered [a]).
Proof.
  intros Hstart.
  destruct a as [folder | folder | index | checked | | | ev];
    cbn [step delivered lines flat_map List.app]; rewrite ?app_nil_r.
  - unfold select_source_folder. by destruct (PyStr.is_empty folder).
  - unfold select_dest_folder. by destruct (PyStr.is_empty folder).
  - by destruct (_ <? _).
  - done.
  - by rewrite Hstart.
  - destruct (stop_button app); [| done]. unfold stop_organization.
    by destruct (organizing_thread app).
  - destruct ev; simpl; by rewrite ?app_nil_r.
Qed.

Lemma steps_log_box (l : list action) :
  forall app, start_button app = false ->
    log_box (fold_left step l app) = log_box app ++ lines (delivered l).
Proof.
  induction l as [| a l IH]; intros app Hstart; [simpl; by rewrite app_nil_r |].
  destruct (step_log_box app a Hstart) as [Hstart' Hlog].
  cbn [fold_left]. rewrite IH by done. rewrite Hlog.
  change (a :: l) with ([a] ++ l). rewrite delivered_app, lines_app.
  by rewrite app_assoc.
Qed.

End GuiFacts.

Section GuiThread.

(** Once there is a thread, an action leaves its request as it is, and
    the flag set if it is set; the start button stays as it is, not
    enabled. *)
Lemma step_thread (app : Gui.PhotoOrganizerApp) (a : Gui.action)
    (thread : OrganizerThread) :
  Gui.start_button app = false ->
  Gui.organizing_thread app = Some thread ->
  Gui.start_button (Gui.step app a) = false /\
  exists thread',
    Gui.organizing_thread (Gui.step app a) = Some thread' /\
    source_folder thread' = source_folder thread /\
    same_request thread' thread /\
    (stop_flag thread = true -> stop_flag thread' = true).
Proof.
  intros Hstart Hth.
  destruct a as [folder | folder | index | checked | | | ev]; cbn [Gui.step].
  - unfold Gui.select_source_folder. destruct (PyStr.is_empty folder);
      (split; [done |]); by exists thread.
  - unfold Gui.select_dest_folder. destruct (PyStr.is_empty folder);
      (split; [done |]); by exists thread.
  - destruct (_ <? _); (split; [done |]); by exists thread.
  - split; [done |]. by exists thread.
  - rewrite Hstart. split; [done |]. by exists thread.
  - destruct (Gui.stop_button app).
    + unfold Gui.stop_organization. rewrite Hth. simpl. split; [done |].
      exists (stop thread). by destruct thread.
    + split; [done |]. by exists thread.
  - destruct ev; simpl; (split; [done |]); by exists thread.
Qed.

Lemma steps_thread (l : list Gui.action) :
  forall (app : Gui.PhotoOrganizerApp) (thread : OrganizerThread),
    Gui.start_button app = false ->
    Gui.organizing_thread app = Some thread ->
    Gui.start_button (fold_left Gui.step l app) = false /\
    exists thread',
      Gui.organizing_thread (fold_left Gui.step l app) = Some thread' /\
      source_folder thread' = source_folder thread /\
      same_request thread' thread /\
      (stop_flag thread = true -> stop_flag thread' = true).
Proof.
  induction l as [| a l IH]; intros app thread Hstart Hth; simpl.
  - split; [done |]. by exists thread.
  - destruct (step_thread app a thread Hstart Hth)
      as (Hstart1 & th1 & Hth1 & Hsrc1 & (Hd1 & Hm1 & Hc1) & Hflag1).
    destruct (IH _ th1 Hstart1 Hth1)
      as (Hstart2 & th2 & Hth2 & Hsrc2 & (Hd2 & Hm2 & Hc2) & Hflag2).
    split; [done |]. exists th2. split; [done |].
    split; [congruence |]. split; [split; [| split]; congruence |]. auto.
Qed.

End GuiThread.

(** X18. In every state of the window the stop button is enabled exactly
    when the start button is not, the start button is enabled exactly when
    no thread has been made, and the method that a thread would get is one
    of the three texts of the combo box. *)
Theorem X18_buttons_follow_the_thread (l : list Gui.action) :
  let app := Gui.session l in
  Gui.stop_button app = negb (Gui.start_button app) /\
  (Gui.start_button app = true <-> Gui.organizing_thread app = None) /\
  In (Gui.currentText app) Gui.METHODS.
Proof.
  intros app. subst app.
  assert (Gui.stop_button (Gui.session l) = negb (Gui.start_button (Gui.session l)) /\
          (Gui.start_button (Gui.session l) = true
           <-> Gui.organizing_thread (Gui.session l) = None) /\
          nth_error Gui.METHODS (Gui.organize_method (Gui.session l))
          = Some (Gui.currentText (Gui.session l))) as (Hs & Ht & Hm).
  { induction l as [| a l IH] using rev_ind; [done |].
    rewrite session_snoc. destruct IH as (Hs & Ht & Hm). by apply step_buttons. }
  split; [done |]. split; [done |]. by eapply nth_error_In.
Qed.

(** X19. In every state of the window each label shows the folder that the
    window holds, or that none is selected while it holds the empty text: a
    dialog that is cancelled changes neither. *)
Theorem X19_labels_show_the_folders (l : list Gui.action) :
  let app := Gui.session l in
  Gui.source_label app = "Carpeta de origen: " +:+ Gui.shown (Gui.source_folder app) /\
  Gui.dest_label app = "Carpeta de destino: " +:+ Gui.shown (Gui.dest_folder app).
Proof.
  intros app. subst app.
  induction l as [| a l IH] using rev_ind; [done |].
  rewrite session_snoc. destruct IH as [Hs Hd]. by apply step_labels.
Qed.

(** X20. A window makes one thread at most: once there is a thread, the
    start button is never enabled again, and whatever happens later, a
    click on it included, the thread keeps its folders, its method and its
    mode, and its flag stays set once it is set. *)
Theorem X20_one_thread_per_window (l1 l2 : list Gui.action) (thread : OrganizerThread) :
  Gui.organizing_thread (Gui.session l1) = Some thread ->
  Gui.start_button (Gui.session (l1 ++ l2)) = false /\
  exists thread',
    Gui.organizing_thread (Gui.session (l1 ++ l2)) = Some thread' /\
    source_folder thread' = source_folder thread /\
    same_request thread' thread /\
    (stop_flag thread = true -> stop_flag thread' = true).
Proof.
  intros Hth. rewrite session_app. apply steps_thread; [| done].
  assert (Gui.stop_button (Gui.session l1) = negb (Gui.start_button (Gui.session l1)) /\
          (Gui.start_button (Gui.session l1) = true
           <-> Gui.organizing_thread (Gui.session l1) = None) /\
          nth_error Gui.METHODS (Gui.organize_method (Gui.session l1))
          = Some (Gui.currentText (Gui.session l1))) as (_ & Ht & _).
  { clear Hth. induction l1 as [| a l IH] using rev_ind; [done |].
    rewrite session_snoc. destruct IH as (Hs & Ht & Hm). by apply step_buttons. }
  destruct (Gui.start_button (Gui.session l1)); [| done].
  destruct Ht as [Ht _]. rewrite Ht in Hth; done.
Qed.

Lemma X20_witness :
  Gui.start_button
    (Gui.session ([Gui.ChooseSource "/src"; Gui.ChooseDest "/dest"; Gui.ClickStart]
                  ++ [Gui.ChooseSource "/other"; Gui.ClickStart; Gui.ClickStop]))
  = false.
Proof.
  exact (proj1 (X20_one_thread_per_window
                  [Gui.ChooseSource "/src"; Gui.ChooseDest "/dest"; Gui.ClickStart]
                  [Gui.ChooseSource "/other"; Gui.ClickStart; Gui.ClickStop]
                  (new_thread "/src" "/dest" "Año/Mes" false) eq_refl)).
Defined.

(** X21. A click on the enabled start button makes a thread for the
    folders, the method and the mode that the window shows at that moment,
    with the flag not set, and empties the log box; from then on the log
    box holds the messages that the thread has emitted, in their order, and
    nothing else, whatever the user does meanwhile. *)
Theorem X21_log_box_shows_the_messages (l0 l : list Gui.action) :
  Gui.start_button (Gui.session l0) = true ->
  let app := Gui.session (l0 ++ Gui.ClickStart :: l) in
  Gui.log_box app = Gui.lines (Gui.delivered l) /\
  exists thread,
    Gui.organizing_thread app = Some thread /\
    source_folder thread = Gui.source_folder (Gui.session l0) /\
    dest_folder thread = Gui.dest_folder (Gui.session l0) /\
    method thread = Gui.currentText (Gui.session l0) /\
    copy_files thread = Gui.copy_mode (Gui.session l0).
Proof.
  intros Hstart app. subst app. rewrite session_app. simpl fold_left.
  rewrite Hstart. split.
  - by rewrite steps_log_box.
  - destruct (steps_thread l (Gui.start_organization (Gui.session l0))
                (Gui.thread_of (Gui.session l0)) eq_refl eq_refl)
      as (_ & th & Hth & Hsrc & (Hd & Hm & Hc) & _).
    exists th. by rewrite Hth, Hsrc, Hd, Hm, Hc.
Qed.

Lemma X21_witness :
  Gui.log_box
    (Gui.session ([Gui.ChooseSource "/src"; Gui.Deliver (Log "old")] ++
                  Gui.ClickStart ::
                  [Gui.Deliver (Preview "/src/a.jpg"); Gui.ClickStop;
                   Gui.Deliver (Log MSG_STOPPED)]))
  = [MSG_STOPPED].
Proof.
  exact (proj1 (X21_log_box_shows_the_messages
                  [Gui.ChooseSource "/src"; Gui.Deliver (Log "old")]
                  [Gui.Deliver (Preview "/src/a.jpg"); Gui.ClickStop;
                   Gui.Deliver (Log MSG_STOPPED)] eq_refl)).
Defined.

(** X22. A click on the start button while one of the two folders has not
    been selected: whatever the source holds, the thread does nothing to
    the files, and once its events have arrived the log box holds the
    message about the missing paths and nothing else. *)
Theorem X22_start_without_folders {W : Type} `{OS W} (l0 l : list Gui.action)
    (ctrl : nat -> bool) (walk : list (string * list string)) (w : W) :
  Gui.start_button (Gui.session l0) = true ->
  Gui.source_folder (Gui.session l0) = "" \/ Gui.dest_folder (Gui.session l0) = "" ->
  let out := start (Gui.thread_of (Gui.session l0)) ctrl walk w in
  Gui.delivered l = out.2 ->
  world out.1.2 = w /\
  Gui.log_box (Gui.session (l0 ++ Gui.ClickStart :: l)) = [MSG_MISSING].
Proof.
  intros Hstart Hmissing out. subst out. unfold start.
  rewrite run_invalid by done. simpl. intros Hl. split; [done |].
  rewrite session_app. simpl fold_left. rewrite Hstart.
  rewrite steps_log_box by done. by rewrite Hl.
Qed.

Lemma X22_witness :
  Gui.log_box
    (Gui.session ([Gui.ChooseSource "/src"; Gui.ChooseDest ""] ++
                  Gui.ClickStart :: [Gui.Deliver (Log MSG_MISSING)]))
  = [MSG_MISSING].
Proof.
  refine (proj2 (X22_start_without_folders
                   [Gui.ChooseSource "/src"; Gui.ChooseDest ""]
                   [Gui.Deliver (Log MSG_MISSING)] never Sample.photos_walk
                   Sample.photos eq_refl (or_intror eq_refl) eq_refl)).
Defined.
